(** * shopping-list-api: entities, repositories, services and HTTP handlers

    A shallow embedding of the Go packages [entities], [repositories],
    [persistence], [services] and [handlers].  Pointers to entities are
    modelled by value: a method that mutates its receiver returns the new
    value, and a repository method that is handed a pointer returns the
    pointee as the storage layer left it.  Everything outside the process
    (the database behind gorm, the random source behind [uuid.New], the
    clock) lives in one explicit [World] threaded through a state monad. *)

From Stdlib Require Import ZArith Lia.
From stdpp Require Import base tactics option list strings numbers.

Local Open Scope Z_scope.

(** ** Basic types *)

(** [uuid.UUID] is a [16]byte array; it is read here as the 128-bit
    big-endian number it spells, so byte [i] sits at bit [8 * (15 - i)]. *)
Definition UUID : Type := Z.

(** [time.Time], as a number of ticks; [0] is the zero time. *)
Definition Timestamp : Type := Z.

(** The process-wide random source read by [uuid.New]: draw number [n]
    yields the sixteen bytes [source n]; [drawn] counts the draws so far. *)
Record Entropy : Type := mkEntropy {
  source : nat → Z;
  drawn : nat;
}.

Module uuid.
(** [uuid.Nil]: all sixteen bytes zero. *)
Definition Nil : UUID := 0.

Definition byte_shift (i : Z) : Z := 8 * (15 - i).

(** [u[i] = (u[i] & keep) | set] on the array read as a number. *)
Definition stamp_byte (i keep set : Z) (u : UUID) : UUID :=
  Z.lor (Z.land u (Z.lnot (Z.shiftl (Z.lxor 255 keep) (byte_shift i))))
        (Z.shiftl set (byte_shift i)).

(** The body of google/uuid's [NewRandomFromReader] once the sixteen
    random bytes [r] have been read:
      uuid[6] = (uuid[6] & 0x0f) | 0x40  -- version 4
      uuid[8] = (uuid[8] & 0x3f) | 0x80  -- variant 10 *)
Definition of_random (r : Z) : UUID :=
  stamp_byte 8 63 128 (stamp_byte 6 15 64 (r mod 2 ^ 128)).

(** [uuid.New()]: one draw from the random source, stamped. *)
Definition New (e : Entropy) : UUID * Entropy :=
  (of_random (source e (drawn e)), mkEntropy (source e) (S (drawn e))).
End uuid.

(** ** package entities *)

Module entities.

(** errors.go, together with the error values that reach this code from
    the libraries below it.  Go compares them with [==]. *)
Inductive error : Type :=
| ErrShoppingListNotFound
| ErrItemNotFound
| ErrInvalidInput
| ErrDuplicateItem
| ErrRecordNotFound              (* gorm.ErrRecordNotFound *)
| ErrForeign (msg : string).     (* any other error value: driver, validator *)

#[global] Instance error_eq_dec : EqDecision error.
Proof. solve_decision. Defined.

(** [err.Error()] *)
Definition Error (e : error) : string :=
  match e with
  | ErrShoppingListNotFound => "shopping list not found"
  | ErrItemNotFound => "item not found"
  | ErrInvalidInput => "invalid input"
  | ErrDuplicateItem => "item already exists"
  | ErrRecordNotFound => "record not found"
  | ErrForeign msg => msg
  end.

(** A Go result pair (pointer, error) in which exactly one side is set. *)
Inductive result (A : Type) : Type :=
| Ok (a : A)
| Err (e : error).
Arguments Ok {A} a.
Arguments Err {A} e.

(** item.go *)
Module Item.
Record t : Type := mk {
  ID : UUID;
  ShoppingListID : UUID;
  Name : string;
  Quantity : Z;          (* Go int; the code never does arithmetic on it *)
  Completed : bool;
  CreatedAt : Timestamp;
  UpdatedAt : Timestamp;
}.

#[global] Instance eq_dec : EqDecision t.
Proof. solve_decision. Defined.

(** The zero value of the struct. *)
Definition zero : t := mk 0 0 EmptyString 0 false 0 0.

Definition set_ID (v : UUID) (i : t) : t :=
  mk v (ShoppingListID i) (Name i) (Quantity i) (Completed i) (CreatedAt i) (UpdatedAt i).
Definition set_ShoppingListID (v : UUID) (i : t) : t :=
  mk (ID i) v (Name i) (Quantity i) (Completed i) (CreatedAt i) (UpdatedAt i).
Definition set_Name (v : string) (i : t) : t :=
  mk (ID i) (ShoppingListID i) v (Quantity i) (Completed i) (CreatedAt i) (UpdatedAt i).
Definition set_Quantity (v : Z) (i : t) : t :=
  mk (ID i) (ShoppingListID i) (Name i) v (Completed i) (CreatedAt i) (UpdatedAt i).
Definition set_Completed (v : bool) (i : t) : t :=
  mk (ID i) (ShoppingListID i) (Name i) (Quantity i) v (CreatedAt i) (UpdatedAt i).
Definition set_CreatedAt (v : Timestamp) (i : t) : t :=
  mk (ID i) (ShoppingListID i) (Name i) (Quantity i) (Completed i) v (UpdatedAt i).
Definition set_UpdatedAt (v : Timestamp) (i : t) : t :=
  mk (ID i) (ShoppingListID i) (Name i) (Quantity i) (Completed i) (CreatedAt i) v.

(** [func NewItem(name string, quantity int) *Item] *)
Definition NewItem (name : string) (quantity : Z) (e : Entropy) : t * Entropy :=
  let '(id, e) := uuid.New e in
  (mk id 0 name quantity false 0 0, e).

(** [func (i *Item) MarkCompleted()] *)
Definition MarkCompleted (i : t) : t := set_Completed true i.

(** [func (i *Item) MarkIncomplete()] *)
Definition MarkIncomplete (i : t) : t := set_Completed false i.

(** [func (i *Item) UpdateQuantity(quantity int)] *)
Definition UpdateQuantity (quantity : Z) (i : t) : t := set_Quantity quantity i.
End Item.

(** shopping_list.go *)
Module ShoppingList.
Record t : Type := mk {
  ID : UUID;
  Name : string;
  Description : string;
  CreatedAt : Timestamp;
  UpdatedAt : Timestamp;
  Items : list Item.t;
}.

#[global] Instance eq_dec : EqDecision t.
Proof. solve_decision. Defined.

Definition zero : t := mk 0 EmptyString EmptyString 0 0 [].

Definition set_Name (v : string) (sl : t) : t :=
  mk (ID sl) v (Description sl) (CreatedAt sl) (UpdatedAt sl) (Items sl).
Definition set_Description (v : string) (sl : t) : t :=
  mk (ID sl) (Name sl) v (CreatedAt sl) (UpdatedAt sl) (Items sl).
Definition set_CreatedAt (v : Timestamp) (sl : t) : t :=
  mk (ID sl) (Name sl) (Description sl) v (UpdatedAt sl) (Items sl).
Definition set_UpdatedAt (v : Timestamp) (sl : t) : t :=
  mk (ID sl) (Name sl) (Description sl) (CreatedAt sl) v (Items sl).
Definition set_Items (v : list Item.t) (sl : t) : t :=
  mk (ID sl) (Name sl) (Description sl) (CreatedAt sl) (UpdatedAt sl) v.

(** [func NewShoppingList(name, description string) *ShoppingList] *)
Definition NewShoppingList (name description : string) (e : Entropy) : t * Entropy :=
  let '(id, e) := uuid.New e in
  (mk id name description 0 0 [], e).

(** [func (sl *ShoppingList) AddItem(item *Item)]: both the receiver and
    the item behind the pointer are written. *)
Definition AddItem (item : Item.t) (sl : t) : t * Item.t :=
  let item := Item.set_ShoppingListID (ID sl) item in
  (set_Items (Items sl ++ [item]) sl, item).

(** [func (sl *ShoppingList) RemoveItem(itemID uuid.UUID)]: the range
    loop stops at the first index [i] whose item has the id, and the
    slice becomes [append(sl.Items[:i], sl.Items[i+1:]...)]. *)
Definition RemoveItem (itemID : UUID) (sl : t) : t :=
  match list_find (λ item, Item.ID item = itemID) (Items sl) with
  | Some (i, _) => set_Items (take i (Items sl) ++ drop (S i) (Items sl)) sl
  | None => sl
  end.

(** [func (sl *ShoppingList) GetItem(itemID uuid.UUID) *Item] *)
Definition GetItem (itemID : UUID) (sl : t) : option Item.t :=
  snd <$> list_find (λ item, Item.ID item = itemID) (Items sl).

(** [func (sl *ShoppingList) UpdateItem(...) error] *)
Definition UpdateItem (itemID : UUID) (name : string) (quantity : Z)
    (completed : bool) (sl : t) : t * option error :=
  match list_find (λ item, Item.ID item = itemID) (Items sl) with
  | Some (i, item) =>
      (set_Items (<[i :=
                      Item.set_Completed completed
                        (Item.set_Quantity quantity (Item.set_Name name item))]>
                    (Items sl)) sl, None)
  | None => (sl, Some ErrItemNotFound)
  end.
End ShoppingList.

End entities.

(** ** The world outside the process *)

(** The two tables, rows in heap order.  [Items] is a gorm association, not
    a column: the list rows written below carry an empty [Items]. *)
Record Store : Type := mkStore {
  shopping_lists : list entities.ShoppingList.t;
  items : list entities.Item.t;
}.

(** [faults] scripts the connection: the n-th statement sent to the database
    fails with the driver's message when the n-th entry is [Some msg]; past
    the end of the script every statement goes through. *)
Record World : Type := mkWorld {
  store : Store;
  faults : list (option string);
  clock : Timestamp;
  rand : Entropy;
}.

Definition set_store (s : Store) (w : World) : World :=
  mkWorld s (faults w) (clock w) (rand w).
Definition set_faults (f : list (option string)) (w : World) : World :=
  mkWorld (store w) f (clock w) (rand w).
Definition set_clock (c : Timestamp) (w : World) : World :=
  mkWorld (store w) (faults w) c (rand w).
Definition set_rand (e : Entropy) (w : World) : World :=
  mkWorld (store w) (faults w) (clock w) e.

(** The next [n] statements reach the database. *)
Definition healthy (n : nat) (w : World) : Prop :=
  Forall (λ f, f = None) (take n (faults w)).

(** Computations of the request path: state passing over the world. *)
Definition M (A : Type) : Type := World → A * World.

#[global] Instance M_ret : MRet M := λ A a w, (a, w).
#[global] Instance M_bind : MBind M :=
  λ A B k m w, let '(a, w') := m w in k a w'.
#[global] Instance M_fmap : FMap M :=
  λ A B f m w, let '(a, w') := m w in (f a, w').

(** Code that only touches the random source, run in the world. *)
Definition with_rand {A} (f : Entropy → A * Entropy) : M A :=
  λ w, let '(a, e) := f (rand w) in (a, set_rand e w).

(** ** gorm over the two tables *)

Module gorm.
Import entities.

(** What a finished [*gorm.DB] chain exposes. *)
Record Result : Type := mkResult {
  Error : option error;
  RowsAffected : Z;
}.

Definition failed (e : error) : Result := mkResult (Some e) 0.
Definition done_rows (n : Z) : Result := mkResult None n.

(** Every statement is one round trip: the clock advances, and the next
    entry of the fault script says whether the connection holds. *)
Definition round_trip : M (option string) := λ w,
  let w := set_clock (clock w + 1) w in
  match faults w with
  | [] => (None, w)
  | f :: fs => (f, set_faults fs w)
  end.

Definition duplicate_key : error :=
  ErrForeign "duplicate key value violates unique constraint".

Definition list_ids (s : Store) : list UUID := ShoppingList.ID <$> shopping_lists s.
Definition item_ids (s : Store) : list UUID := Item.ID <$> items s.

(** [autoCreateTime] / [autoUpdateTime] on insert fill a zero timestamp. *)
Definition fill (now t : Timestamp) : Timestamp := if decide (t = 0) then now else t.

(** The row written for a list.  The services hand over lists whose
    [Items] is empty; saving the rows of a non-empty association is gorm's
    business and is not modelled. *)
Definition list_row (l : ShoppingList.t) : ShoppingList.t := ShoppingList.set_Items [] l.

(** [INSERT INTO shopping_lists]: the primary key must be unused. *)
Definition insert_ShoppingList (l : ShoppingList.t) : M (ShoppingList.t * Result) := λ w,
  if decide (ShoppingList.ID l ∈ list_ids (store w)) then ((l, failed duplicate_key), w)
  else
    let l := ShoppingList.set_UpdatedAt (fill (clock w) (ShoppingList.UpdatedAt l))
               (ShoppingList.set_CreatedAt (fill (clock w) (ShoppingList.CreatedAt l)) l) in
    ((l, done_rows 1),
     set_store (mkStore (shopping_lists (store w) ++ [list_row l]) (items (store w))) w).

(** [INSERT INTO items]; a zero [Quantity] takes the column default
    ([gorm:"default:1"]), which gorm writes back into the struct.  The
    engine's foreign-key check on insert is not modelled. *)
Definition insert_Item (i : Item.t) : M (Item.t * Result) := λ w,
  if decide (Item.ID i ∈ item_ids (store w)) then ((i, failed duplicate_key), w)
  else
    let i := Item.set_UpdatedAt (fill (clock w) (Item.UpdatedAt i))
               (Item.set_CreatedAt (fill (clock w) (Item.CreatedAt i))
                  (Item.set_Quantity (if decide (Item.Quantity i = 0) then 1
                                      else Item.Quantity i) i)) in
    ((i, done_rows 1),
     set_store (mkStore (shopping_lists (store w)) (items (store w) ++ [i])) w).

(** [db.Create(list)] *)
Definition Create_ShoppingList (l : ShoppingList.t) : M (ShoppingList.t * Result) :=
  fault ← round_trip;
  match fault with
  | Some msg => mret (l, failed (ErrForeign msg))
  | None => insert_ShoppingList l
  end.

(** [db.Create(item)] *)
Definition Create_Item (i : Item.t) : M (Item.t * Result) :=
  fault ← round_trip;
  match fault with
  | Some msg => mret (i, failed (ErrForeign msg))
  | None => insert_Item i
  end.

(** [db.Where("id = ?", id).First(&list)] into a zero-valued [list]. *)
Definition First_ShoppingList (id : UUID) : M (ShoppingList.t * Result) :=
  fault ← round_trip;
  match fault with
  | Some msg => mret (ShoppingList.zero, failed (ErrForeign msg))
  | None => λ w,
      match list_find (λ r, ShoppingList.ID r = id) (shopping_lists (store w)) with
      | Some (_, r) => ((r, done_rows 1), w)
      | None => ((ShoppingList.zero, failed ErrRecordNotFound), w)
      end
  end.

(** [db.Where("id = ?", id).First(&item)] *)
Definition First_Item (id : UUID) : M (Item.t * Result) :=
  fault ← round_trip;
  match fault with
  | Some msg => mret (Item.zero, failed (ErrForeign msg))
  | None => λ w,
      match list_find (λ r, Item.ID r = id) (items (store w)) with
      | Some (_, r) => ((r, done_rows 1), w)
      | None => ((Item.zero, failed ErrRecordNotFound), w)
      end
  end.

(** [db.Find(&lists)] *)
Definition Find_ShoppingLists : M (list ShoppingList.t * Result) :=
  fault ← round_trip;
  match fault with
  | Some msg => mret ([], failed (ErrForeign msg))
  | None => λ w,
      ((shopping_lists (store w), done_rows (Z.of_nat (length (shopping_lists (store w))))), w)
  end.

(** [db.Where("shopping_list_id = ?", id).Find(&items)] *)
Definition Find_Items_by_list (id : UUID) : M (list Item.t * Result) :=
  fault ← round_trip;
  match fault with
  | Some msg => mret ([], failed (ErrForeign msg))
  | None => λ w,
      let rows := filter (λ r, Item.ShoppingListID r = id) (items (store w)) in
      ((rows, done_rows (Z.of_nat (length rows))), w)
  end.

(** [UPDATE ... WHERE id = ?]: every row with the key takes the new values. *)
Definition update_lists (id : UUID) (new : ShoppingList.t)
    (rows : list ShoppingList.t) : list ShoppingList.t :=
  (λ r, if decide (ShoppingList.ID r = id) then new else r) <$> rows.
Definition update_items (id : UUID) (new : Item.t) (rows : list Item.t) : list Item.t :=
  (λ r, if decide (Item.ID r = id) then new else r) <$> rows.

(** [db.Save(list)].  A zero primary key makes it a plain [Create].
    Otherwise it is an UPDATE of every column where the key matches, with
    [UpdatedAt] stamped; when that UPDATE touches no row, gorm follows it
    with an INSERT, a second statement. *)
Definition Save_ShoppingList (l : ShoppingList.t) : M (ShoppingList.t * Result) :=
  fault ← round_trip;
  match fault with
  | Some msg => mret (l, failed (ErrForeign msg))
  | None =>
      if decide (ShoppingList.ID l = uuid.Nil) then insert_ShoppingList l
      else λ w,
        let rows := shopping_lists (store w) in
        let id := ShoppingList.ID l in
        let l := ShoppingList.set_UpdatedAt (clock w) l in
        if decide (id ∈ list_ids (store w)) then
          ((l, done_rows (Z.of_nat (length (filter (λ r, ShoppingList.ID r = id) rows)))),
           set_store (mkStore (update_lists id (list_row l) rows) (items (store w))) w)
        else
          (fault ← round_trip;
           match fault with
           | Some msg => mret (l, failed (ErrForeign msg))
           | None => insert_ShoppingList l
           end) w
  end.

(** [db.Save(item)] *)
Definition Save_Item (i : Item.t) : M (Item.t * Result) :=
  fault ← round_trip;
  match fault with
  | Some msg => mret (i, failed (ErrForeign msg))
  | None =>
      if decide (Item.ID i = uuid.Nil) then insert_Item i
      else λ w,
        let rows := items (store w) in
        let id := Item.ID i in
        let i := Item.set_UpdatedAt (clock w) i in
        if decide (id ∈ item_ids (store w)) then
          ((i, done_rows (Z.of_nat (length (filter (λ r, Item.ID r = id) rows)))),
           set_store (mkStore (shopping_lists (store w)) (update_items id i rows)) w)
        else
          (fault ← round_trip;
           match fault with
           | Some msg => mret (i, failed (ErrForeign msg))
           | None => insert_Item i
           end) w
  end.

(** [db.Where("id = ?", id).Delete(&entities.ShoppingList{})].  The
    association is declared [constraint:OnDelete:CASCADE]: the engine
    drops the items of a deleted list; they do not count as affected. *)
Definition Delete_ShoppingList (id : UUID) : M Result :=
  fault ← round_trip;
  match fault with
  | Some msg => mret (failed (ErrForeign msg))
  | None => λ w,
      let rows := shopping_lists (store w) in
      let n := length (filter (λ r, ShoppingList.ID r = id) rows) in
      (done_rows (Z.of_nat n),
       set_store (mkStore (filter (λ r, ShoppingList.ID r ≠ id) rows)
                          (if decide (n = 0%nat) then items (store w)
                           else filter (λ r, Item.ShoppingListID r ≠ id) (items (store w)))) w)
  end.

(** [db.Where("id = ?", id).Delete(&entities.Item{})] *)
Definition Delete_Item (id : UUID) : M Result :=
  fault ← round_trip;
  match fault with
  | Some msg => mret (failed (ErrForeign msg))
  | None => λ w,
      let rows := items (store w) in
      (done_rows (Z.of_nat (length (filter (λ r, Item.ID r = id) rows))),
       set_store (mkStore (shopping_lists (store w))
                          (filter (λ r, Item.ID r ≠ id) rows)) w)
  end.
End gorm.

(** ** package repositories: the persistence contracts *)

Module repositories.
Import entities.

(** [type ShoppingListRepository interface].  A method that takes a
    pointer returns the pointee as the implementation left it. *)
Module ShoppingListRepository.
Record t : Type := mk {
  Create : ShoppingList.t → M (ShoppingList.t * option error);
  GetByID : UUID → M (result ShoppingList.t);
  GetAll : M (result (list ShoppingList.t));
  Update : ShoppingList.t → M (ShoppingList.t * option error);
  Delete : UUID → M (option error);
}.
End ShoppingListRepository.

(** [type ItemRepository interface] *)
Module ItemRepository.
Record t : Type := mk {
  Create : Item.t → M (Item.t * option error);
  GetByID : UUID → M (result Item.t);
  GetByShoppingListID : UUID → M (result (list Item.t));
  Update : Item.t → M (Item.t * option error);
  Delete : UUID → M (option error);
}.
End ItemRepository.
End repositories.

(** ** package persistence: the gorm-backed repositories *)

Module persistence.
Import entities repositories.

Module PostgresShoppingListRepository.
(** [return r.db.WithContext(ctx).Create(list).Error] *)
Definition Create (l : ShoppingList.t) : M (ShoppingList.t * option error) :=
  '(l, res) ← gorm.Create_ShoppingList l;
  mret (l, gorm.Error res).

Definition GetByID (id : UUID) : M (result ShoppingList.t) :=
  '(l, res) ← gorm.First_ShoppingList id;
  match gorm.Error res with
  | Some err =>
      if decide (err = ErrRecordNotFound) then mret (Err ErrShoppingListNotFound)
      else mret (Err err)
  | None => mret (Ok l)
  end.

(** [return lists, err] *)
Definition GetAll : M (result (list ShoppingList.t)) :=
  '(lists, res) ← gorm.Find_ShoppingLists;
  match gorm.Error res with
  | Some err => mret (Err err)
  | None => mret (Ok lists)
  end.

Definition Update (l : ShoppingList.t) : M (ShoppingList.t * option error) :=
  '(l, res) ← gorm.Save_ShoppingList l;
  mret (l, gorm.Error res).

Definition Delete (id : UUID) : M (option error) :=
  res ← gorm.Delete_ShoppingList id;
  match gorm.Error res with
  | Some err => mret (Some err)
  | None =>
      if decide (gorm.RowsAffected res = 0) then mret (Some ErrShoppingListNotFound)
      else mret None
  end.

(** [NewPostgresShoppingListRepository] *)
Definition new : ShoppingListRepository.t :=
  ShoppingListRepository.mk Create GetByID GetAll Update Delete.
End PostgresShoppingListRepository.

Module PostgresItemRepository.
Definition Create (i : Item.t) : M (Item.t * option error) :=
  '(i, res) ← gorm.Create_Item i;
  mret (i, gorm.Error res).

Definition GetByID (id : UUID) : M (result Item.t) :=
  '(i, res) ← gorm.First_Item id;
  match gorm.Error res with
  | Some err =>
      if decide (err = ErrRecordNotFound) then mret (Err ErrItemNotFound)
      else mret (Err err)
  | None => mret (Ok i)
  end.

(** [return items, err] *)
Definition GetByShoppingListID (shoppingListID : UUID) : M (result (list Item.t)) :=
  '(rows, res) ← gorm.Find_Items_by_list shoppingListID;
  match gorm.Error res with
  | Some err => mret (Err err)
  | None => mret (Ok rows)
  end.

Definition Update (i : Item.t) : M (Item.t * option error) :=
  '(i, res) ← gorm.Save_Item i;
  mret (i, gorm.Error res).

Definition Delete (id : UUID) : M (option error) :=
  res ← gorm.Delete_Item id;
  match gorm.Error res with
  | Some err => mret (Some err)
  | None =>
      if decide (gorm.RowsAffected res = 0) then mret (Some ErrItemNotFound)
      else mret None
  end.

(** [NewPostgresItemRepository] *)
Definition new : ItemRepository.t :=
  ItemRepository.mk Create GetByID GetByShoppingListID Update Delete.
End PostgresItemRepository.
End persistence.

(** ** package services *)

Module services.
Import entities repositories.

(** [list.Items = make([]entities.Item, len(items))] followed by
    [for i, item := range items { list.Items[i] = *item }]. *)
Fixpoint copy_from (i : nat) (items dst : list Item.t) : list Item.t :=
  match items with
  | [] => dst
  | item :: rest => copy_from (S i) rest (<[i := item]> dst)
  end.
Definition to_values (items : list Item.t) : list Item.t :=
  copy_from 0 items (replicate (length items) Item.zero).

(** shopping_list_service.go *)
Module ShoppingListService.
Record t : Type := NewShoppingListService {
  shoppingListRepo : ShoppingListRepository.t;
  itemRepo : ItemRepository.t;
}.

Definition CreateShoppingList (s : t) (name description : string)
    : M (result ShoppingList.t) :=
  if decide (name = EmptyString) then mret (Err ErrInvalidInput)
  else
    sl ← with_rand (ShoppingList.NewShoppingList name description);
    '(sl, err) ← ShoppingListRepository.Create (shoppingListRepo s) sl;
    match err with
    | Some err => mret (Err err)
    | None => mret (Ok sl)
    end.

Definition GetShoppingList (s : t) (id : UUID) : M (result ShoppingList.t) :=
  r ← ShoppingListRepository.GetByID (shoppingListRepo s) id;
  match r with
  | Err err => mret (Err err)
  | Ok sl =>
      r ← ItemRepository.GetByShoppingListID (itemRepo s) id;
      match r with
      | Err err => mret (Err err)
      | Ok items => mret (Ok (ShoppingList.set_Items (to_values items) sl))
      end
  end.

(** The body of [for _, list := range lists] in [GetAllShoppingLists];
    an error leaves the loop at once. *)
Fixpoint load_each (s : t) (lists : list ShoppingList.t)
    : M (result (list ShoppingList.t)) :=
  match lists with
  | [] => mret (Ok [])
  | sl :: rest =>
      r ← ItemRepository.GetByShoppingListID (itemRepo s) (ShoppingList.ID sl);
      match r with
      | Err err => mret (Err err)
      | Ok items =>
          r ← load_each s rest;
          match r with
          | Err err => mret (Err err)
          | Ok rest => mret (Ok (ShoppingList.set_Items (to_values items) sl :: rest))
          end
      end
  end.

Definition GetAllShoppingLists (s : t) : M (result (list ShoppingList.t)) :=
  r ← ShoppingListRepository.GetAll (shoppingListRepo s);
  match r with
  | Err err => mret (Err err)
  | Ok lists => load_each s lists
  end.

Definition UpdateShoppingList (s : t) (id : UUID) (name description : string)
    : M (result ShoppingList.t) :=
  if decide (name = EmptyString) then mret (Err ErrInvalidInput)
  else
    r ← ShoppingListRepository.GetByID (shoppingListRepo s) id;
    match r with
    | Err err => mret (Err err)
    | Ok sl =>
        let sl := ShoppingList.set_Name name sl in
        let sl := ShoppingList.set_Description description sl in
        '(sl, err) ← ShoppingListRepository.Update (shoppingListRepo s) sl;
        match err with
        | Some err => mret (Err err)
        | None => mret (Ok sl)
        end
    end.

Definition DeleteShoppingList (s : t) (id : UUID) : M (option error) :=
  ShoppingListRepository.Delete (shoppingListRepo s) id.
End ShoppingListService.

(** item_service.go *)
Module ItemService.
Record t : Type := mk {
  itemRepo : ItemRepository.t;
  shoppingListRepo : ShoppingListRepository.t;
}.

Definition NewItemService (itemRepo : ItemRepository.t)
    (shoppingListRepo : ShoppingListRepository.t) : t :=
  mk itemRepo shoppingListRepo.

Definition CreateItem (s : t) (shoppingListID : UUID) (name : string) (quantity : Z)
    : M (result Item.t) :=
  if decide (name = EmptyString) then mret (Err ErrInvalidInput)
  else
    (* Verify shopping list exists *)
    r ← ShoppingListRepository.GetByID (shoppingListRepo s) shoppingListID;
    match r with
    | Err _ => mret (Err ErrShoppingListNotFound)
    | Ok _ =>
        item ← with_rand (Item.NewItem name quantity);
        let item := Item.set_ShoppingListID shoppingListID item in
        '(item, err) ← ItemRepository.Create (itemRepo s) item;
        match err with
        | Some err => mret (Err err)
        | None => mret (Ok item)
        end
    end.

Definition GetItem (s : t) (id : UUID) : M (result Item.t) :=
  ItemRepository.GetByID (itemRepo s) id.

Definition GetItemsByShoppingListID (s : t) (shoppingListID : UUID)
    : M (result (list Item.t)) :=
  ItemRepository.GetByShoppingListID (itemRepo s) shoppingListID.

Definition UpdateItem (s : t) (id : UUID) (name : string) (quantity : Z)
    (completed : bool) : M (result Item.t) :=
  if decide (name = EmptyString) then mret (Err ErrInvalidInput)
  else
    r ← ItemRepository.GetByID (itemRepo s) id;
    match r with
    | Err err => mret (Err err)
    | Ok item =>
        let item := Item.set_Name name item in
        let item := Item.set_Quantity quantity item in
        let item := Item.set_Completed completed item in
        '(item, err) ← ItemRepository.Update (itemRepo s) item;
        match err with
        | Some err => mret (Err err)
        | None => mret (Ok item)
        end
    end.

Definition DeleteItem (s : t) (id : UUID) : M (option error) :=
  ItemRepository.Delete (itemRepo s) id.

Definition ToggleItemCompletion (s : t) (id : UUID) : M (result Item.t) :=
  r ← ItemRepository.GetByID (itemRepo s) id;
  match r with
  | Err err => mret (Err err)
  | Ok item =>
      let item := if Item.Completed item then Item.MarkIncomplete item
                  else Item.MarkCompleted item in
      '(item, err) ← ItemRepository.Update (itemRepo s) item;
      match err with
      | Some err => mret (Err err)
      | None => mret (Ok item)
      end
  end.
End ItemService.

(** interfaces.go *)
Module ShoppingListServiceInterface.
Record t : Type := mk {
  CreateShoppingList : string → string → M (result ShoppingList.t);
  GetShoppingList : UUID → M (result ShoppingList.t);
  GetAllShoppingLists : M (result (list ShoppingList.t));
  UpdateShoppingList : UUID → string → string → M (result ShoppingList.t);
  DeleteShoppingList : UUID → M (option error);
}.

(** The concrete service seen through the interface, as asserted by [var _ ShoppingListServiceInterface = ...]. *)
Definition of_service (s : ShoppingListService.t) : t :=
  mk (ShoppingListService.CreateShoppingList s)
     (ShoppingListService.GetShoppingList s)
     (ShoppingListService.GetAllShoppingLists s)
     (ShoppingListService.UpdateShoppingList s)
     (ShoppingListService.DeleteShoppingList s).
End ShoppingListServiceInterface.

Module ItemServiceInterface.
Record t : Type := mk {
  CreateItem : UUID → string → Z → M (result Item.t);
  GetItem : UUID → M (result Item.t);
  GetItemsByShoppingListID : UUID → M (result (list Item.t));
  UpdateItem : UUID → string → Z → bool → M (result Item.t);
  DeleteItem : UUID → M (option error);
  ToggleItemCompletion : UUID → M (result Item.t);
}.

(** The concrete service seen through the interface, as asserted by [var _ ItemServiceInterface = ...]. *)
Definition of_service (s : ItemService.t) : t :=
  mk (ItemService.CreateItem s) (ItemService.GetItem s)
     (ItemService.GetItemsByShoppingListID s) (ItemService.UpdateItem s)
     (ItemService.DeleteItem s) (ItemService.ToggleItemCompletion s).
End ItemServiceInterface.
End services.

(** ** package handlers *)

Module handlers.
Import entities services.

(** The second argument of [c.JSON]. *)
Inductive Payload : Type :=
| H_error (msg : string)                 (* gin.H{"error": msg} *)
| JSON_Item (i : Item.t)
| JSON_Items (l : list Item.t)
| JSON_ShoppingList (l : ShoppingList.t)
| JSON_ShoppingLists (l : list ShoppingList.t)
| JSON_nil.

Record Response : Type := JSON {
  Code : Z;
  Body : Payload;
}.

Definition StatusOK : Z := 200.
Definition StatusCreated : Z := 201.
Definition StatusNoContent : Z := 204.
Definition StatusBadRequest : Z := 400.
Definition StatusNotFound : Z := 404.
Definition StatusInternalServerError : Z := 500.

(** What a handler reads from its [*gin.Context]: the outcome of
    [uuid.Parse] on the path parameter and the outcome of
    [c.ShouldBindJSON(&req)].  Parsing and binding belong to the
    framework; a field absent from the body arrives as its zero value. *)
Record Context (Req : Type) : Type := mkContext {
  Param : result UUID;
  ShouldBindJSON : result Req;
}.
Arguments mkContext {Req} _ _.
Arguments Param {Req} _.
Arguments ShouldBindJSON {Req} _.

(** item_handler.go *)
Module ItemHandler.
Record t : Type := NewItemHandler { service : ItemServiceInterface.t }.

Module CreateItemRequest.
Record t : Type := mk {
  Name : string;
  Quantity : Z;
}.
(** [req.Quantity = 1] *)
Definition set_Quantity (v : Z) (req : t) : t := mk (Name req) v.
End CreateItemRequest.

Module UpdateItemRequest.
Record t : Type := mk {
  Name : string;
  Quantity : Z;
  Completed : bool;
}.
Definition set_Quantity (v : Z) (req : t) : t := mk (Name req) v (Completed req).
End UpdateItemRequest.

(** The tail of [CreateItem], from [if err != nil] to the last [c.JSON]. *)
Definition CreateItem_respond (r : result Item.t) : Response :=
  match r with
  | Err err =>
      if decide (err = ErrInvalidInput) then
        JSON StatusBadRequest (H_error (Error err))
      else if decide (err = ErrShoppingListNotFound) then
        JSON StatusNotFound (H_error "Shopping list not found")
      else JSON StatusInternalServerError (H_error "Failed to create item")
  | Ok item => JSON StatusCreated (JSON_Item item)
  end.

Definition CreateItem (h : t) (c : Context CreateItemRequest.t) : M Response :=
  match Param c with
  | Err _ => mret (JSON StatusBadRequest (H_error "Invalid list ID format"))
  | Ok listID =>
      match ShouldBindJSON c with
      | Err err => mret (JSON StatusBadRequest (H_error (Error err)))
      | Ok req =>
          let req := if decide (CreateItemRequest.Quantity req ≤ 0)
                     then CreateItemRequest.set_Quantity 1 req
                     else req in
          r ← ItemServiceInterface.CreateItem (service h) listID
                (CreateItemRequest.Name req) (CreateItemRequest.Quantity req);
          mret (CreateItem_respond r)
      end
  end.

Definition GetItem (h : t) (c : Context unit) : M Response :=
  match Param c with
  | Err _ => mret (JSON StatusBadRequest (H_error "Invalid ID format"))
  | Ok id =>
      r ← ItemServiceInterface.GetItem (service h) id;
      match r with
      | Err err =>
          if decide (err = ErrItemNotFound) then
            mret (JSON StatusNotFound (H_error "Item not found"))
          else mret (JSON StatusInternalServerError (H_error "Failed to retrieve item"))
      | Ok item => mret (JSON StatusOK (JSON_Item item))
      end
  end.

Definition GetItemsByShoppingListID (h : t) (c : Context unit) : M Response :=
  match Param c with
  | Err _ => mret (JSON StatusBadRequest (H_error "Invalid list ID format"))
  | Ok listID =>
      r ← ItemServiceInterface.GetItemsByShoppingListID (service h) listID;
      match r with
      | Err _ => mret (JSON StatusInternalServerError (H_error "Failed to retrieve items"))
      | Ok items => mret (JSON StatusOK (JSON_Items items))
      end
  end.

(** The tail of [UpdateItem], from [if err != nil] to the last [c.JSON]. *)
Definition UpdateItem_respond (r : result Item.t) : Response :=
  match r with
  | Err err =>
      if decide (err = ErrItemNotFound) then
        JSON StatusNotFound (H_error "Item not found")
      else if decide (err = ErrInvalidInput) then
        JSON StatusBadRequest (H_error (Error err))
      else JSON StatusInternalServerError (H_error "Failed to update item")
  | Ok item => JSON StatusOK (JSON_Item item)
  end.

Definition UpdateItem (h : t) (c : Context UpdateItemRequest.t) : M Response :=
  match Param c with
  | Err _ => mret (JSON StatusBadRequest (H_error "Invalid ID format"))
  | Ok id =>
      match ShouldBindJSON c with
      | Err err => mret (JSON StatusBadRequest (H_error (Error err)))
      | Ok req =>
          let req := if decide (UpdateItemRequest.Quantity req ≤ 0)
                     then UpdateItemRequest.set_Quantity 1 req
                     else req in
          r ← ItemServiceInterface.UpdateItem (service h) id
                (UpdateItemRequest.Name req) (UpdateItemRequest.Quantity req)
                (UpdateItemRequest.Completed req);
          mret (UpdateItem_respond r)
      end
  end.

Definition DeleteItem (h : t) (c : Context unit) : M Response :=
  match Param c with
  | Err _ => mret (JSON StatusBadRequest (H_error "Invalid ID format"))
  | Ok id =>
      err ← ItemServiceInterface.DeleteItem (service h) id;
      match err with
      | Some err =>
          if decide (err = ErrItemNotFound) then
            mret (JSON StatusNotFound (H_error "Item not found"))
          else mret (JSON StatusInternalServerError (H_error "Failed to delete item"))
      | None => mret (JSON StatusNoContent JSON_nil)
      end
  end.

Definition ToggleItemCompletion (h : t) (c : Context unit) : M Response :=
  match Param c with
  | Err _ => mret (JSON StatusBadRequest (H_error "Invalid ID format"))
  | Ok id =>
      r ← ItemServiceInterface.ToggleItemCompletion (service h) id;
      match r with
      | Err err =>
          if decide (err = ErrItemNotFound) then
            mret (JSON StatusNotFound (H_error "Item not found"))
          else mret (JSON StatusInternalServerError
                       (H_error "Failed to toggle item completion"))
      | Ok item => mret (JSON StatusOK (JSON_Item item))
      end
  end.
End ItemHandler.

(** shopping_list_handler.go *)
Module ShoppingListHandler.
Record t : Type := NewShoppingListHandler { service : ShoppingListServiceInterface.t }.

(** [CreateShoppingListRequest] and [UpdateShoppingListRequest] have the
    same two fields. *)
Record ShoppingListRequest : Type := mkShoppingListRequest {
  Name : string;
  Description : string;
}.

Definition CreateShoppingList (h : t) (c : Context ShoppingListRequest) : M Response :=
  match ShouldBindJSON c with
  | Err err => mret (JSON StatusBadRequest (H_error (Error err)))
  | Ok req =>
      r ← ShoppingListServiceInterface.CreateShoppingList (service h)
            (Name req) (Description req);
      match r with
      | Err err =>
          if decide (err = ErrInvalidInput) then
            mret (JSON StatusBadRequest (H_error (Error err)))
          else mret (JSON StatusInternalServerError
                       (H_error "Failed to create shopping list"))
      | Ok sl => mret (JSON StatusCreated (JSON_ShoppingList sl))
      end
  end.

Definition GetShoppingList (h : t) (c : Context unit) : M Response :=
  match Param c with
  | Err _ => mret (JSON StatusBadRequest (H_error "Invalid ID format"))
  | Ok id =>
      r ← ShoppingListServiceInterface.GetShoppingList (service h) id;
      match r with
      | Err err =>
          if decide (err = ErrShoppingListNotFound) then
            mret (JSON StatusNotFound (H_error "Shopping list not found"))
          else mret (JSON StatusInternalServerError
                       (H_error "Failed to retrieve shopping list"))
      | Ok sl => mret (JSON StatusOK (JSON_ShoppingList sl))
      end
  end.

Definition GetAllShoppingLists (h : t) : M Response :=
  r ← ShoppingListServiceInterface.GetAllShoppingLists (service h);
  match r with
  | Err _ => mret (JSON StatusInternalServerError
                     (H_error "Failed to retrieve shopping lists"))
  | Ok lists => mret (JSON StatusOK (JSON_ShoppingLists lists))
  end.

Definition UpdateShoppingList (h : t) (c : Context ShoppingListRequest) : M Response :=
  match Param c with
  | Err _ => mret (JSON StatusBadRequest (H_error "Invalid ID format"))
  | Ok id =>
      match ShouldBindJSON c with
      | Err err => mret (JSON StatusBadRequest (H_error (Error err)))
      | Ok req =>
          r ← ShoppingListServiceInterface.UpdateShoppingList (service h) id
                (Name req) (Description req);
          match r with
          | Err err =>
              if decide (err = ErrShoppingListNotFound) then
                mret (JSON StatusNotFound (H_error "Shopping list not found"))
              else if decide (err = ErrInvalidInput) then
                mret (JSON StatusBadRequest (H_error (Error err)))
              else mret (JSON StatusInternalServerError
                           (H_error "Failed to update shopping list"))
          | Ok sl => mret (JSON StatusOK (JSON_ShoppingList sl))
          end
      end
  end.

Definition DeleteShoppingList (h : t) (c : Context unit) : M Response :=
  match Param c with
  | Err _ => mret (JSON StatusBadRequest (H_error "Invalid ID format"))
  | Ok id =>
      err ← ShoppingListServiceInterface.DeleteShoppingList (service h) id;
      match err with
      | Some err =>
          if decide (err = ErrShoppingListNotFound) then
            mret (JSON StatusNotFound (H_error "Shopping list not found"))
          else mret (JSON StatusInternalServerError
                       (H_error "Failed to delete shopping list"))
      | None => mret (JSON StatusNoContent JSON_nil)
      end
  end.
End ShoppingListHandler.
End handlers.

(** ** cmd/server: the wiring of [main] *)

Module server.
Import persistence services handlers.

Definition shoppingListRepo := PostgresShoppingListRepository.new.
Definition itemRepo := PostgresItemRepository.new.

Definition shoppingListService : ShoppingListService.t :=
  ShoppingListService.NewShoppingListService shoppingListRepo itemRepo.
Definition itemService : ItemService.t :=
  ItemService.NewItemService itemRepo shoppingListRepo.

Definition shoppingListHandler : ShoppingListHandler.t :=
  ShoppingListHandler.NewShoppingListHandler
    (ShoppingListServiceInterface.of_service shoppingListService).
Definition itemHandler : ItemHandler.t :=
  ItemHandler.NewItemHandler (ItemServiceInterface.of_service itemService).
End server.

(** ** package routes *)

Module routes.
Import entities handlers.

(** A request as gin hands it over once a registered route has matched:
    the route, with the outcome of parsing its path parameter and of
    binding its body. *)
Inductive Request : Type :=
| POST_lists (body : result ShoppingListHandler.ShoppingListRequest)
| GET_lists
| GET_lists_id (id : result UUID)
| PUT_lists_id (id : result UUID) (body : result ShoppingListHandler.ShoppingListRequest)
| DELETE_lists_id (id : result UUID)
| POST_shopping_lists_items (listId : result UUID)
    (body : result ItemHandler.CreateItemRequest.t)
| GET_shopping_lists_items (listId : result UUID)
| GET_items_id (id : result UUID)
| PUT_items_id (id : result UUID) (body : result ItemHandler.UpdateItemRequest.t)
| DELETE_items_id (id : result UUID)
| PATCH_items_id_toggle (id : result UUID)
| GET_health.

(** The HTTP method each route is registered under. *)
Definition method (req : Request) : string :=
  match req with
  | POST_lists _ | POST_shopping_lists_items _ _ => "POST"
  | GET_lists | GET_lists_id _ | GET_shopping_lists_items _ | GET_items_id _
  | GET_health => "GET"
  | PUT_lists_id _ _ | PUT_items_id _ _ => "PUT"
  | DELETE_lists_id _ | DELETE_items_id _ => "DELETE"
  | PATCH_items_id_toggle _ => "PATCH"
  end.

(** Whether gin could parse the path parameter and bind the body. *)
Definition decoded (req : Request) : bool :=
  match req with
  | POST_lists (Err _)
  | GET_lists_id (Err _)
  | PUT_lists_id (Err _) _ | PUT_lists_id _ (Err _)
  | DELETE_lists_id (Err _)
  | POST_shopping_lists_items (Err _) _ | POST_shopping_lists_items _ (Err _)
  | GET_shopping_lists_items (Err _)
  | GET_items_id (Err _)
  | PUT_items_id (Err _) _ | PUT_items_id _ (Err _)
  | DELETE_items_id (Err _)
  | PATCH_items_id_toggle (Err _) => false
  | _ => true
  end.

(** What is written back: a handler's [c.JSON], or the static health body. *)
Inductive Reply : Type :=
| Handled (r : Response)
| Healthy (status service version : string).

Definition reply_code (r : Reply) : Z :=
  match r with
  | Handled r => Code r
  | Healthy _ _ _ => 200
  end.

(** [func SetupRoutes(router, shoppingListHandler, itemHandler)]: the
    dispatch table it registers. *)
Definition SetupRoutes (shoppingListHandler : ShoppingListHandler.t)
    (itemHandler : ItemHandler.t) (req : Request) : M Reply :=
  match req with
  | POST_lists body =>
      Handled <$> ShoppingListHandler.CreateShoppingList shoppingListHandler
                    (mkContext (Err ErrInvalidInput) body)
  | GET_lists => Handled <$> ShoppingListHandler.GetAllShoppingLists shoppingListHandler
  | GET_lists_id id =>
      Handled <$> ShoppingListHandler.GetShoppingList shoppingListHandler
                    (mkContext id (Ok ()))
  | PUT_lists_id id body =>
      Handled <$> ShoppingListHandler.UpdateShoppingList shoppingListHandler
                    (mkContext id body)
  | DELETE_lists_id id =>
      Handled <$> ShoppingListHandler.DeleteShoppingList shoppingListHandler
                    (mkContext id (Ok ()))
  | POST_shopping_lists_items listId body =>
      Handled <$> ItemHandler.CreateItem itemHandler (mkContext listId body)
  | GET_shopping_lists_items listId =>
      Handled <$> ItemHandler.GetItemsByShoppingListID itemHandler (mkContext listId (Ok ()))
  | GET_items_id id => Handled <$> ItemHandler.GetItem itemHandler (mkContext id (Ok ()))
  | PUT_items_id id body => Handled <$> ItemHandler.UpdateItem itemHandler (mkContext id body)
  | DELETE_items_id id => Handled <$> ItemHandler.DeleteItem itemHandler (mkContext id (Ok ()))
  | PATCH_items_id_toggle id =>
      Handled <$> ItemHandler.ToggleItemCompletion itemHandler (mkContext id (Ok ()))
  | GET_health => mret (Healthy "healthy" "shopping-list-api" "v1.0.0")
  end.
End routes.

(** ** package database and the start of [main] *)

Module database.
(** [type Config struct] *)
Record Config : Type := mkConfig {
  Host : string;
  Port : string;
  User : string;
  Password : string;
  DBName : string;
  SSLMode : string;
}.

(** The [dsn] that [NewPostgresConnection] formats with [fmt.Sprintf]. *)
Definition dsn (config : Config) : string :=
  "host=" +:+ Host config +:+ " user=" +:+ User config
  +:+ " password=" +:+ Password config +:+ " dbname=" +:+ DBName config
  +:+ " port=" +:+ Port config +:+ " sslmode=" +:+ SSLMode config.

(** [func isValidConfig(config Config) bool], the helper of the package's
    tests. *)
Definition isValidConfig (config : Config) : bool :=
  bool_decide (Host config ≠ EmptyString)
  && bool_decide (Port config ≠ EmptyString)
  && bool_decide (User config ≠ EmptyString)
  && bool_decide (DBName config ≠ EmptyString).
End database.

Module main.
(** The process environment: [None] for a variable that is not set. *)
Definition Environ : Type := string → option string.

(** [os.Getenv]: the empty string for a variable that is not set. *)
Definition Getenv (env : Environ) (key : string) : string :=
  default EmptyString (env key).

(** [func getEnv(key, fallback string) string] *)
Definition getEnv (env : Environ) (key fallback : string) : string :=
  let value := Getenv env key in
  if decide (value ≠ EmptyString) then value else fallback.

(** The [dbConfig] literal at the top of [main]. *)
Definition dbConfig (env : Environ) : database.Config :=
  database.mkConfig
    (getEnv env "DB_HOST" "localhost")
    (getEnv env "DB_PORT" "5432")
    (getEnv env "DB_USER" "postgres")
    (getEnv env "DB_PASSWORD" "password")
    (getEnv env "DB_NAME" "shopping_list_db")
    (getEnv env "DB_SSLMODE" "disable").

(** The router of [main]: [routes.SetupRoutes(router, shoppingListHandler,
    itemHandler)] over the gorm-backed services. *)
Definition router : routes.Request → M routes.Reply :=
  routes.SetupRoutes server.shoppingListHandler server.itemHandler.

(** Requests served one after the other. *)
Fixpoint serve (reqs : list routes.Request) : M (list routes.Reply) :=
  match reqs with
  | [] => mret []
  | req :: rest =>
      reply ← router req;
      replies ← serve rest;
      mret (reply :: replies)
  end.
End main.

(** ** cmd/migrator *)

Module migrator.
(** [func getEnv(key, fallback string) string], the migrator's own copy. *)
Definition getEnv (env : main.Environ) (key fallback : string) : string :=
  let value := main.Getenv env key in
  if decide (value ≠ EmptyString) then value else fallback.

End migrator.

(** ** Consistency of the tables *)

(** Primary keys are unique in both tables. *)
Definition keys_unique (s : Store) : Prop :=
  NoDup (gorm.list_ids s) ∧ NoDup (gorm.item_ids s).

(** Every item row refers to a stored list. *)
Definition items_attached (s : Store) : Prop :=
  ∀ item, item ∈ items s → entities.Item.ShoppingListID item ∈ gorm.list_ids s.

Definition consistent (s : Store) : Prop := keys_unique s ∧ items_attached s.

(** A Go result whose error side is set. *)
Definition is_Err {A} (r : entities.result A) : Prop :=
  match r with
  | entities.Err _ => True
  | entities.Ok _ => False
  end.

(** ** Sample data *)

Module examples.
Import entities.

Definition groceries : ShoppingList.t := ShoppingList.mk 7 "Groceries" "weekly" 10 10 [].
Definition hardware : ShoppingList.t := ShoppingList.mk 8 "Hardware" "shed" 11 11 [].

Definition milk : Item.t := Item.mk 21 7 "Milk" 1 false 12 12.
Definition nails : Item.t := Item.mk 22 8 "Nails" 100 false 13 13.
Definition bread : Item.t := Item.mk 23 7 "Bread" 2 true 14 14.

(** A random source whose draw [n] is [n + 1] in the top byte. *)
Definition dice : Entropy := mkEntropy (λ n, Z.shiftl (Z.of_nat n + 1) 120) 0.

(** Two lists, three items, a connection that holds. *)
Definition w0 : World :=
  mkWorld (mkStore [groceries; hardware] [milk; nails; bread]) [] 100 dice.

(** The same tables behind a connection that drops on the next statement. *)
Definition w_down : World := set_faults [Some "connection refused"] w0.
End examples.

(** * Properties *)

Import entities repositories persistence services handlers.

Ltac unfold_M := unfold mbind, M_bind, mret, M_ret in *.

(** ** Entities *)

(** All-ones random bytes come out as ffffffff-ffff-4fff-bfff-ffffffffffff. *)
Example of_random_all_ones :
  uuid.of_random (2 ^ 128 - 1) = 0xffffffffffff4fffbfffffffffffffff.
Proof. reflexivity. Qed.

Example RemoveItem_sample :
  ShoppingList.Items
    (ShoppingList.RemoveItem 22
       (ShoppingList.set_Items
          [examples.milk; examples.nails; examples.bread; examples.nails]
          examples.groceries))
  = [examples.milk; examples.bread; examples.nails].
Proof. reflexivity. Qed.

Section RemoveItem.
Implicit Types (sl : ShoppingList.t) (itemID : UUID).

(** C9. [ShoppingList.RemoveItem] touches nothing but [Items]; when no item
    carries the id the list is returned as it was, and otherwise exactly
    the first item with that id is dropped: the items before it (none of
    which has the id) and the items after it keep their places.  The
    function is total, so there is no input on which it fails. *)
Theorem RemoveItem_drops_first_match sl itemID :
  let sl' := ShoppingList.RemoveItem itemID sl in
  ShoppingList.ID sl' = ShoppingList.ID sl
  ∧ ShoppingList.Name sl' = ShoppingList.Name sl
  ∧ ShoppingList.Description sl' = ShoppingList.Description sl
  ∧ ShoppingList.CreatedAt sl' = ShoppingList.CreatedAt sl
  ∧ ShoppingList.UpdatedAt sl' = ShoppingList.UpdatedAt sl
  ∧ ((Forall (λ item, Item.ID item ≠ itemID) (ShoppingList.Items sl) ∧ sl' = sl)
     ∨ (∃ front hit back,
           ShoppingList.Items sl = front ++ hit :: back
           ∧ Forall (λ item, Item.ID item ≠ itemID) front
           ∧ Item.ID hit = itemID
           ∧ ShoppingList.Items sl' = front ++ back
           ∧ S (length (ShoppingList.Items sl')) = length (ShoppingList.Items sl))).
Proof.
  unfold ShoppingList.RemoveItem.
  destruct (list_find _ _) as [[i hit]|] eqn:Hfind; simpl.
  - repeat split; try done. right.
    apply list_find_Some in Hfind as (Hi & Hid & Hbefore).
    exists (take i (ShoppingList.Items sl)), hit, (drop (S i) (ShoppingList.Items sl)).
    split_and!; [by rewrite take_drop_middle | | done | done |].
    + apply Forall_lookup. intros j y Hj.
      pose proof (lookup_lt_Some _ _ _ Hj) as Hlen.
      rewrite length_take in Hlen.
      apply (Hbefore j y); [|lia].
      by rewrite lookup_take_lt in Hj by lia.
    + rewrite <- (take_drop_middle _ _ _ Hi) at 3.
      rewrite !length_app. simpl. lia.
  - repeat split; try done. left. split; [|done].
    by apply list_find_None in Hfind.
Qed.
End RemoveItem.


(** ** Running computations *)

(** A statement's round trip leaves the tables and the random source alone;
    it only moves the clock and the fault script. *)
Lemma round_trip_frame w :
  store (gorm.round_trip w).2 = store w
  ∧ rand (gorm.round_trip w).2 = rand w
  ∧ clock (gorm.round_trip w).2 = clock w + 1.
Proof. unfold gorm.round_trip. simpl. by destruct (faults w). Qed.

Lemma round_trip_healthy n w :
  healthy (S n) w →
  ∃ w1, gorm.round_trip w = (None, w1)
        ∧ store w1 = store w ∧ rand w1 = rand w ∧ clock w1 = clock w + 1
        ∧ healthy n w1.
Proof.
  unfold healthy, gorm.round_trip. simpl.
  destruct (faults w) as [|f fs] eqn:Hf; simpl; intros H.
  - eexists. split_and!; try done. simpl. rewrite Hf. by rewrite take_nil.
  - inversion_clear H as [|?? -> H']. eexists. split_and!; done.
Qed.

(** ** HTTP handlers *)

(** C6. In the item-create and item-update handlers a decoded quantity
    [q ≤ 0] (an omitted field decodes to [0]) reaches the service as [1], and
    a decoded quantity [p > 0] reaches it as [p]; name, id and completed
    flag are handed over as decoded, and the response is computed from the
    service's answer alone. *)
Theorem item_quantity_normalized (h : ItemHandler.t) (id : UUID) (name : string)
    (completed : bool) (q : Z) (Hq : q ≤ 0) (p : Z) (Hp : 0 < p) :
  ItemHandler.CreateItem h
    (mkContext (Ok id) (Ok (ItemHandler.CreateItemRequest.mk name q)))
  = (r ← ItemServiceInterface.CreateItem (ItemHandler.service h) id name 1;
     mret (ItemHandler.CreateItem_respond r))
  ∧ ItemHandler.CreateItem h
      (mkContext (Ok id) (Ok (ItemHandler.CreateItemRequest.mk name p)))
    = (r ← ItemServiceInterface.CreateItem (ItemHandler.service h) id name p;
       mret (ItemHandler.CreateItem_respond r))
  ∧ ItemHandler.UpdateItem h
      (mkContext (Ok id) (Ok (ItemHandler.UpdateItemRequest.mk name q completed)))
    = (r ← ItemServiceInterface.UpdateItem (ItemHandler.service h) id name 1 completed;
       mret (ItemHandler.UpdateItem_respond r))
  ∧ ItemHandler.UpdateItem h
      (mkContext (Ok id) (Ok (ItemHandler.UpdateItemRequest.mk name p completed)))
    = (r ← ItemServiceInterface.UpdateItem (ItemHandler.service h) id name p completed;
       mret (ItemHandler.UpdateItem_respond r)).
Proof.
  unfold ItemHandler.CreateItem, ItemHandler.UpdateItem. simpl.
  split_and!; case_decide; (done || lia).
Qed.

Lemma item_quantity_normalized_witness :
  (0 ≤ 0 ∧ 0 < 3)
  ∧ ItemHandler.CreateItem server.itemHandler
      (mkContext (Ok 7) (Ok (ItemHandler.CreateItemRequest.mk "Milk" 0)))
    = (r ← ItemServiceInterface.CreateItem (ItemHandler.service server.itemHandler) 7 "Milk" 1;
       mret (ItemHandler.CreateItem_respond r)).
Proof.
  split; [lia|].
  apply (item_quantity_normalized server.itemHandler 7 "Milk" false 0 ltac:(lia) 3 ltac:(lia)).
Defined.

(** ** Services: validation and lookups before any write *)

(** C3. [CreateShoppingList] with an empty name answers [ErrInvalidInput]
    and hands back the world it was given: whatever the two repositories
    are, none of their methods ran, so nothing was written. *)
Theorem CreateShoppingList_empty_name (s : ShoppingListService.t)
    (description : string) (w : World) :
  ShoppingListService.CreateShoppingList s EmptyString description w
  = (Err ErrInvalidInput, w).
Proof. reflexivity. Qed.

Lemma list_GetByID_frame id w :
  store (PostgresShoppingListRepository.GetByID id w).2 = store w
  ∧ rand (PostgresShoppingListRepository.GetByID id w).2 = rand w.
Proof.
  unfold PostgresShoppingListRepository.GetByID, gorm.First_ShoppingList. unfold_M.
  destruct (round_trip_frame w) as (Hs & Hr & _).
  destruct (gorm.round_trip w) as [[msg|] w1]; simpl in *; [done|].
  by destruct (list_find _ _) as [[? ?]|].
Qed.

Lemma list_GetByID_missing id w :
  id ∉ gorm.list_ids (store w) →
  ∃ e, (PostgresShoppingListRepository.GetByID id w).1 = Err e.
Proof.
  intros Hmiss.
  unfold PostgresShoppingListRepository.GetByID, gorm.First_ShoppingList. unfold_M.
  destruct (round_trip_frame w) as (Hs & _).
  destruct (gorm.round_trip w) as [[msg|] w1]; simpl in *; [by eexists|].
  destruct (list_find _ _) as [[i r]|] eqn:Hfind; simpl; [|by eexists].
  apply list_find_Some in Hfind as (Hi & Hid & _).
  destruct Hmiss. rewrite <- Hs. unfold gorm.list_ids.
  apply list_elem_of_fmap. exists r. split; [done|].
  by eapply list_elem_of_lookup_2.
Qed.

(** C1. [ItemService.CreateItem] checks in this order.  With an empty name
    it answers [ErrInvalidInput] in the world it was given, for any
    repositories, any list id and any world: nothing ran.  With a non-empty
    name, as soon as the lookup of the parent list reports an error the
    answer is [ErrShoppingListNotFound] in the world the lookup left: no
    method of the item repository ran.  On the gorm-backed repositories a
    list id that is in no row makes the lookup fail, whatever the connection
    does, and both tables and the random source are what they were. *)
Theorem CreateItem_checks_before_write (s : ItemService.t) (listID : UUID)
    (quantity : Z) (w : World) (name : string) :
  ItemService.CreateItem s listID EmptyString quantity w = (Err ErrInvalidInput, w)
  ∧ (name ≠ EmptyString →
     ∀ e w1,
       ShoppingListRepository.GetByID (ItemService.shoppingListRepo s) listID w
         = (Err e, w1) →
       ItemService.CreateItem s listID name quantity w
         = (Err ErrShoppingListNotFound, w1))
  ∧ (name ≠ EmptyString →
     listID ∉ gorm.list_ids (store w) →
     ∃ w', ItemService.CreateItem server.itemService listID name quantity w
             = (Err ErrShoppingListNotFound, w')
           ∧ store w' = store w ∧ rand w' = rand w).
Proof.
  split_and!.
  - reflexivity.
  - intros Hname e w1 Hget. unfold ItemService.CreateItem.
    case_decide; [done|]. unfold_M. by rewrite Hget.
  - intros Hname Hmissing.
    destruct (list_GetByID_missing listID w Hmissing) as [e He].
    destruct (list_GetByID_frame listID w) as [Hs Hr].
    destruct (PostgresShoppingListRepository.GetByID listID w) as [r w1] eqn:Hget.
    simpl in *. subst r. exists w1. split; [|done].
    unfold ItemService.CreateItem. case_decide; [done|]. unfold_M.
    simpl. by rewrite Hget.
Qed.

Lemma CreateItem_checks_before_write_witness :
  ItemService.CreateItem server.itemService 7 EmptyString 2 examples.w0
  = (Err ErrInvalidInput, examples.w0)
  ∧ 7 ∈ gorm.list_ids (store examples.w0)
  ∧ "Milk" ≠ EmptyString
  ∧ (9 ∉ gorm.list_ids (store examples.w0))
  ∧ ∃ w', ItemService.CreateItem server.itemService 9 "Milk" 2 examples.w0
            = (Err ErrShoppingListNotFound, w')
          ∧ items (store w') = [examples.milk; examples.nails; examples.bread]
          ∧ rand w' = rand examples.w0.
Proof.
  assert (Hname : "Milk" ≠ EmptyString) by done.
  assert (Hmissing : 9 ∉ gorm.list_ids (store examples.w0)).
  { intros H. repeat (apply elem_of_cons in H as [H|H]; [done|]). by apply elem_of_nil in H. }
  split.
  { apply (CreateItem_checks_before_write server.itemService 7 2 examples.w0 "Milk"). }
  split; [apply list_elem_of_here|]. split; [done|]. split; [done|].
  destruct (CreateItem_checks_before_write server.itemService 9 2 examples.w0 "Milk")
    as (_ & _ & H3).
  destruct (H3 Hname Hmissing) as (w' & Hrun & Hs & Hr).
  exists w'. by rewrite Hs.
Defined.

(** ** Aggregate reads *)

Lemma copy_from_app items : ∀ pre dst,
  length dst = length items →
  copy_from (length pre) items (pre ++ dst) = pre ++ items.
Proof.
  induction items as [|x rest IH]; intros pre dst Hlen; simpl.
  - destruct dst; [done|discriminate].
  - destruct dst as [|d dst]; [discriminate|]. simpl in Hlen.
    rewrite insert_app_r_alt by lia. rewrite Nat.sub_diag. simpl.
    replace (pre ++ x :: dst) with ((pre ++ [x]) ++ dst) by by rewrite <- app_assoc.
    replace (S (length pre)) with (length (pre ++ [x])) by (rewrite length_app; simpl; lia).
    rewrite IH by lia. by rewrite <- app_assoc.
Qed.

(** The copy loop of the aggregate reads is the identity on values. *)
Lemma to_values_id items : to_values items = items.
Proof.
  unfold to_values.
  apply (copy_from_app items [] (replicate (length items) Item.zero)).
  by rewrite length_replicate.
Qed.

Lemma list_GetByID_run n id w :
  healthy (S n) w →
  ∃ w1, PostgresShoppingListRepository.GetByID id w
        = (match list_find (λ r, ShoppingList.ID r = id) (shopping_lists (store w)) with
           | Some (_, row) => Ok row
           | None => Err ErrShoppingListNotFound
           end, w1)
        ∧ store w1 = store w ∧ rand w1 = rand w ∧ clock w1 = clock w + 1
        ∧ healthy n w1.
Proof.
  intros (w1 & Hrt & Hs & Hr & Hc & Hh)%round_trip_healthy.
  exists w1. split; [|done].
  unfold PostgresShoppingListRepository.GetByID, gorm.First_ShoppingList. unfold_M.
  rewrite Hrt, Hs. by destruct (list_find _ _) as [[? ?]|].
Qed.

Lemma item_GetByShoppingListID_run n id w :
  healthy (S n) w →
  ∃ w1, PostgresItemRepository.GetByShoppingListID id w
        = (Ok (filter (λ r, Item.ShoppingListID r = id) (items (store w))), w1)
        ∧ store w1 = store w ∧ rand w1 = rand w ∧ clock w1 = clock w + 1
        ∧ healthy n w1.
Proof.
  intros (w1 & Hrt & Hs & Hr & Hc & Hh)%round_trip_healthy.
  exists w1. split; [|done].
  unfold PostgresItemRepository.GetByShoppingListID, gorm.Find_Items_by_list. unfold_M.
  by rewrite Hrt, Hs.
Qed.

(** C4. On the gorm-backed service, while the connection holds for the
    two reads: [GetShoppingList id] answers [ErrShoppingListNotFound] when no
    stored list has the id and answers a list when one has; and every list
    it answers has the name, description and timestamps of the first stored
    row of that id, and as [Items] exactly the stored items whose
    [ShoppingListID] is [id]: all of them, nothing else, in table order,
    whatever [Items] the row itself carried.  The read changes neither
    table. *)
Theorem GetShoppingList_aggregate (id : UUID) (w : World) (Hdb : healthy 2 w) :
  let run := ShoppingListService.GetShoppingList server.shoppingListService id w in
  (id ∉ gorm.list_ids (store w) → run.1 = Err ErrShoppingListNotFound)
  ∧ (id ∈ gorm.list_ids (store w) → ∃ sl, run.1 = Ok sl)
  ∧ (∀ sl, run.1 = Ok sl →
       ShoppingList.Items sl
       = filter (λ item, Item.ShoppingListID item = id) (items (store w))
       ∧ (∀ item, item ∈ ShoppingList.Items sl
                  ↔ item ∈ items (store w) ∧ Item.ShoppingListID item = id)
       ∧ ∃ i row,
           list_find (λ r, ShoppingList.ID r = id) (shopping_lists (store w)) = Some (i, row)
           ∧ sl = ShoppingList.mk id (ShoppingList.Name row) (ShoppingList.Description row)
                    (ShoppingList.CreatedAt row) (ShoppingList.UpdatedAt row)
                    (filter (λ item, Item.ShoppingListID item = id) (items (store w))))
  ∧ store run.2 = store w.
Proof.
  destruct (list_GetByID_run 1 id w Hdb) as (w1 & Hget & Hs1 & _ & _ & Hh1).
  simpl. unfold ShoppingListService.GetShoppingList. unfold_M. simpl.
  rewrite Hget.
  destruct (list_find _ _) as [[i row]|] eqn:Hfind.
  - destruct (item_GetByShoppingListID_run 0 id w1 Hh1) as (w2 & Hitems & Hs2 & _).
    rewrite Hitems, to_values_id, Hs1. simpl.
    apply list_find_Some in Hfind as Hrow. destruct Hrow as (Hi & Hid & _).
    split_and!.
    + intros Hmiss. destruct Hmiss. unfold gorm.list_ids.
      apply list_elem_of_fmap. exists row. split; [done|].
      by eapply list_elem_of_lookup_2.
    + intros _. by eexists.
    + intros sl [= <-]. simpl. split; [done|]. split.
      * intros item. by rewrite list_elem_of_filter, (comm and).
      * exists i, row. split; [done|]. by rewrite <- Hid.
    + congruence.
  - simpl. split_and!; try done.
    intros Hin. apply list_find_None in Hfind.
    unfold gorm.list_ids in Hin. apply list_elem_of_fmap in Hin as (row & -> & Hrow).
    rewrite list.Forall_forall in Hfind. by destruct (Hfind row Hrow).
Qed.

Lemma GetShoppingList_aggregate_witness :
  healthy 2 examples.w0
  ∧ (ShoppingListService.GetShoppingList server.shoppingListService 7 examples.w0).1
    = Ok (ShoppingList.mk 7 "Groceries" "weekly" 10 10 [examples.milk; examples.bread]).
Proof.
  assert (Hdb : healthy 2 examples.w0) by constructor.
  split; [done|].
  destruct (GetShoppingList_aggregate 7 examples.w0 Hdb) as (_ & Hsome & Hall & _).
  destruct Hsome as [sl Hsl].
  { repeat constructor. }
  rewrite Hsl. f_equal.
  destruct (Hall sl Hsl) as (_ & _ & i & row & Hfind & ->).
  vm_compute in Hfind. by injection Hfind as <- <-.
Defined.

(** ** Deletes *)

(** C7. Both repository [Delete]s run exactly one delete statement and
    read its outcome: the domain not-found error of the entity is returned
    exactly when the statement reports no error and zero affected rows; an
    error reported by the statement is returned as it is; with no error and
    at least one affected row the answer is [nil]. *)
Theorem Delete_reads_affected_rows (id : UUID) (w : World) :
  let list_stmt := gorm.Delete_ShoppingList id w in
  let list_del := PostgresShoppingListRepository.Delete id w in
  let item_stmt := gorm.Delete_Item id w in
  let item_del := PostgresItemRepository.Delete id w in
  (list_del.2 = list_stmt.2
   ∧ (list_del.1 = Some ErrShoppingListNotFound
      ↔ gorm.Error list_stmt.1 = None ∧ gorm.RowsAffected list_stmt.1 = 0)
   ∧ (∀ err, gorm.Error list_stmt.1 = Some err → list_del.1 = Some err)
   ∧ (gorm.Error list_stmt.1 = None → 1 ≤ gorm.RowsAffected list_stmt.1 →
      list_del.1 = None))
  ∧ (item_del.2 = item_stmt.2
     ∧ (item_del.1 = Some ErrItemNotFound
        ↔ gorm.Error item_stmt.1 = None ∧ gorm.RowsAffected item_stmt.1 = 0)
     ∧ (∀ err, gorm.Error item_stmt.1 = Some err → item_del.1 = Some err)
     ∧ (gorm.Error item_stmt.1 = None → 1 ≤ gorm.RowsAffected item_stmt.1 →
        item_del.1 = None)).
Proof.
  simpl. split.
  - unfold PostgresShoppingListRepository.Delete, gorm.Delete_ShoppingList. unfold_M.
    destruct (gorm.round_trip w) as [[msg|] w1]; simpl.
    + split_and!; [done | | by intros ? [= <-] | done].
      split; [done|]. by intros [? _].
    + case_decide as Hrows; simpl.
      * split_and!; [done | done | done |]. intros _ ?. lia.
      * split_and!; [done | | done | done].
        split; [done|]. by intros [_ ?].
  - unfold PostgresItemRepository.Delete, gorm.Delete_Item. unfold_M.
    destruct (gorm.round_trip w) as [[msg|] w1]; simpl.
    + split_and!; [done | | by intros ? [= <-] | done].
      split; [done|]. by intros [? _].
    + case_decide as Hrows; simpl.
      * split_and!; [done | done | done |]. intros _ ?. lia.
      * split_and!; [done | | done | done].
        split; [done|]. by intros [_ ?].
Qed.

(** ** Item updates *)

Lemma item_GetByID_run n id w :
  healthy (S n) w →
  ∃ w1, PostgresItemRepository.GetByID id w
        = (match list_find (λ r, Item.ID r = id) (items (store w)) with
           | Some (_, row) => Ok row
           | None => Err ErrItemNotFound
           end, w1)
        ∧ store w1 = store w ∧ rand w1 = rand w ∧ clock w1 = clock w + 1
        ∧ healthy n w1.
Proof.
  intros (w1 & Hrt & Hs & Hr & Hc & Hh)%round_trip_healthy.
  exists w1. split; [|done].
  unfold PostgresItemRepository.GetByID, gorm.First_Item. unfold_M.
  rewrite Hrt, Hs. by destruct (list_find _ _) as [[? ?]|].
Qed.

(** Saving an item whose key is stored (and not the zero key) rewrites the
    rows of that key and stamps [UpdatedAt]; nothing else moves. *)
Lemma item_Update_run n item w :
  healthy (S n) w →
  Item.ID item ≠ uuid.Nil →
  Item.ID item ∈ gorm.item_ids (store w) →
  ∃ w1, PostgresItemRepository.Update item w
        = ((Item.set_UpdatedAt (clock w + 1) item, None), w1)
        ∧ items (store w1)
          = gorm.update_items (Item.ID item) (Item.set_UpdatedAt (clock w + 1) item)
              (items (store w))
        ∧ shopping_lists (store w1) = shopping_lists (store w)
        ∧ rand w1 = rand w ∧ clock w1 = clock w + 1 ∧ healthy n w1.
Proof.
  intros (w1 & Hrt & Hs & Hr & Hc & Hh)%round_trip_healthy Hnil Hin.
  unfold PostgresItemRepository.Update, gorm.Save_Item. unfold_M.
  rewrite Hrt. case_decide as Hzero; [done|]. rewrite Hs.
  case_decide as Hhit; [|done].
  rewrite Hc. eexists. split; [done|]. simpl.
  split_and!; try done.
Qed.

Lemma list_find_update_items id new rows i old :
  Item.ID new = id →
  list_find (λ r, Item.ID r = id) rows = Some (i, old) →
  list_find (λ r, Item.ID r = id) (gorm.update_items id new rows) = Some (i, new).
Proof.
  intros Hnew. revert i. unfold gorm.update_items.
  induction rows as [|r rows IH]; intros i; csimpl; [done|].
  case_decide as Hr.
  - intros [= <- <-]. by rewrite decide_True.
  - rewrite (decide_False (P := Item.ID r = id)) by done.
    destruct (list_find _ rows) as [[j y]|] eqn:Hfind; simpl; [|done].
    intros [= <- <-]. by rewrite (IH j eq_refl).
Qed.

Lemma list_find_item_ids id rows i row :
  list_find (λ r, Item.ID r = id) rows = Some (i, row) →
  Item.ID row = id ∧ id ∈ Item.ID <$> rows.
Proof.
  intros (Hi & Hid & _)%list_find_Some. split; [done|].
  apply list_elem_of_fmap. exists row. split; [done|]. by eapply list_elem_of_lookup_2.
Qed.

(** One toggle on the gorm-backed service, for a stored item. *)
Lemma Toggle_run n id w i item :
  healthy (S (S n)) w →
  id ≠ uuid.Nil →
  list_find (λ r, Item.ID r = id) (items (store w)) = Some (i, item) →
  ∃ w',
    ItemService.ToggleItemCompletion server.itemService id w
    = (Ok (Item.set_UpdatedAt (clock w + 2)
             (Item.set_Completed (negb (Item.Completed item)) item)), w')
    ∧ list_find (λ r, Item.ID r = id) (items (store w'))
      = Some (i, Item.set_UpdatedAt (clock w + 2)
                   (Item.set_Completed (negb (Item.Completed item)) item))
    ∧ shopping_lists (store w') = shopping_lists (store w)
    ∧ clock w' = clock w + 2
    ∧ healthy n w'.
Proof.
  intros Hdb Hnil Hfind.
  destruct (item_GetByID_run _ id w Hdb) as (w1 & Hget & Hs1 & _ & Hc1 & Hh1).
  rewrite Hfind in Hget.
  destruct (list_find_item_ids _ _ _ _ Hfind) as [Hid Hin].
  set (flipped := Item.set_Completed (negb (Item.Completed item)) item).
  assert (Hflip : (if Item.Completed item then Item.MarkIncomplete item
                   else Item.MarkCompleted item) = flipped).
  { unfold flipped, Item.MarkIncomplete, Item.MarkCompleted.
    by destruct (Item.Completed item). }
  destruct (item_Update_run n flipped w1 Hh1)
    as (w2 & Hupd & Hitems & Hlists & _ & Hc2 & Hh2).
  { simpl. by rewrite Hid. }
  { simpl. unfold gorm.item_ids. by rewrite Hs1, Hid. }
  exists w2. unfold ItemService.ToggleItemCompletion. unfold_M. simpl.
  rewrite Hget, Hflip, Hupd. rewrite Hc1 in *.
  replace (clock w + 1 + 1) with (clock w + 2) in * by lia.
  split_and!; try done.
  - rewrite Hitems, Hs1. simpl. rewrite Hid.
    apply (list_find_update_items id _ _ i item); [by simpl|done].
  - by rewrite Hlists, Hs1.
Qed.



(** One full update on the gorm-backed service, for a stored item. *)
Lemma UpdateItem_run n id name quantity completed w i item :
  name ≠ EmptyString →
  healthy (S (S n)) w →
  id ≠ uuid.Nil →
  list_find (λ r, Item.ID r = id) (items (store w)) = Some (i, item) →
  ∃ w',
    ItemService.UpdateItem server.itemService id name quantity completed w
    = (Ok (Item.mk (Item.ID item) (Item.ShoppingListID item) name quantity completed
             (Item.CreatedAt item) (clock w + 2)), w')
    ∧ list_find (λ r, Item.ID r = id) (items (store w'))
      = Some (i, Item.mk (Item.ID item) (Item.ShoppingListID item) name quantity completed
                   (Item.CreatedAt item) (clock w + 2))
    ∧ shopping_lists (store w') = shopping_lists (store w)
    ∧ healthy n w'.
Proof.
  intros Hname Hdb Hnil Hfind.
  destruct (item_GetByID_run _ id w Hdb) as (w1 & Hget & Hs1 & _ & Hc1 & Hh1).
  rewrite Hfind in Hget.
  destruct (list_find_item_ids _ _ _ _ Hfind) as [Hid Hin].
  set (new := Item.set_Completed completed
                (Item.set_Quantity quantity (Item.set_Name name item))).
  destruct (item_Update_run n new w1 Hh1)
    as (w2 & Hupd & Hitems & Hlists & _ & Hc2 & Hh2).
  { simpl. by rewrite Hid. }
  { simpl. unfold gorm.item_ids. by rewrite Hs1, Hid. }
  exists w2. unfold ItemService.UpdateItem. case_decide; [done|]. unfold_M. simpl.
  rewrite Hget. fold new. rewrite Hupd. rewrite Hc1 in *.
  replace (clock w + 1 + 1) with (clock w + 2) in * by lia.
  change (Item.set_UpdatedAt (clock w + 2) new)
    with (Item.mk (Item.ID item) (Item.ShoppingListID item) name quantity completed
            (Item.CreatedAt item) (clock w + 2)) in *.
  split_and!; try done.
  - rewrite Hitems, Hs1. change (Item.ID new) with (Item.ID item). rewrite Hid at 1.
    apply (list_find_update_items id _ _ i item); [by simpl|done].
  - by rewrite Hlists, Hs1.
Qed.

(** C10.  At the service layer, for any repositories: once the lookup has
    answered [fetched], [UpdateItem] hands the repository [fetched] with
    [Name], [Quantity] and [Completed] overwritten, and
    [ToggleItemCompletion] hands it [fetched] with [Completed] negated;
    [ID], [ShoppingListID], [CreatedAt] (and [UpdatedAt]) go through as
    fetched, and the answer is what the repository's [Update] leaves.  On
    the gorm-backed repositories, for a stored item with a non-zero key and
    a connection that holds, the item answered and stored has the [ID],
    [ShoppingListID] and [CreatedAt] of the stored one; only [UpdatedAt] is
    stamped below the service. *)
Theorem item_updates_frame (id : UUID) (name : string) (quantity : Z) (completed : bool)
    (w : World) (i : nat) (item : Item.t)
    (Hname : name ≠ EmptyString)
    (Hdb : healthy 2 w)
    (Hkey : id ≠ uuid.Nil)
    (Hstored : list_find (λ r, Item.ID r = id) (items (store w)) = Some (i, item)) :
  let finish := λ out : Item.t * option error * World,
    (match out.1.2 with Some err => Err err | None => Ok out.1.1 end, out.2) in
  (∀ (s : ItemService.t) (fetched : Item.t) (w1 : World),
     ItemRepository.GetByID (ItemService.itemRepo s) id w = (Ok fetched, w1) →
     ItemService.UpdateItem s id name quantity completed w
     = finish (ItemRepository.Update (ItemService.itemRepo s)
                 (Item.mk (Item.ID fetched) (Item.ShoppingListID fetched)
                    name quantity completed
                    (Item.CreatedAt fetched) (Item.UpdatedAt fetched)) w1)
     ∧ ItemService.ToggleItemCompletion s id w
       = finish (ItemRepository.Update (ItemService.itemRepo s)
                   (Item.mk (Item.ID fetched) (Item.ShoppingListID fetched)
                      (Item.Name fetched) (Item.Quantity fetched)
                      (negb (Item.Completed fetched))
                      (Item.CreatedAt fetched) (Item.UpdatedAt fetched)) w1))
  ∧ (∃ w',
       ItemService.UpdateItem server.itemService id name quantity completed w
       = (Ok (Item.mk id (Item.ShoppingListID item) name quantity completed
                (Item.CreatedAt item) (clock w + 2)), w')
       ∧ list_find (λ r, Item.ID r = id) (items (store w'))
         = Some (i, Item.mk id (Item.ShoppingListID item) name quantity completed
                      (Item.CreatedAt item) (clock w + 2)))
  ∧ (∃ w',
       ItemService.ToggleItemCompletion server.itemService id w
       = (Ok (Item.mk id (Item.ShoppingListID item) (Item.Name item) (Item.Quantity item)
                (negb (Item.Completed item)) (Item.CreatedAt item) (clock w + 2)), w')
       ∧ list_find (λ r, Item.ID r = id) (items (store w'))
         = Some (i, Item.mk id (Item.ShoppingListID item) (Item.Name item)
                      (Item.Quantity item) (negb (Item.Completed item))
                      (Item.CreatedAt item) (clock w + 2))).
Proof.
  destruct (list_find_item_ids _ _ _ _ Hstored) as [Hid _].
  simpl. split_and!.
  - intros s fetched w1 Hget. split.
    + unfold ItemService.UpdateItem. case_decide; [done|]. unfold_M. rewrite Hget.
      unfold Item.set_Completed, Item.set_Quantity, Item.set_Name. simpl.
      by destruct (ItemRepository.Update _ _ _) as [[? [?|]] ?].
    + unfold ItemService.ToggleItemCompletion. unfold_M. rewrite Hget.
      unfold Item.MarkIncomplete, Item.MarkCompleted, Item.set_Completed.
      destruct (Item.Completed fetched); simpl;
        by destruct (ItemRepository.Update _ _ _) as [[? [?|]] ?].
  - destruct (UpdateItem_run 0 id name quantity completed w i item Hname Hdb Hkey Hstored)
      as (w' & Hrun & Hrow & _).
    exists w'. by rewrite Hrun, Hrow, Hid.
  - destruct (Toggle_run 0 id w i item Hdb Hkey Hstored) as (w' & Hrun & Hrow & _).
    exists w'. rewrite Hrun, Hrow.
    unfold Item.set_UpdatedAt, Item.set_Completed. simpl. by rewrite Hid.
Qed.

Lemma item_updates_frame_witness :
  "Oat milk" ≠ EmptyString
  ∧ healthy 2 examples.w0
  ∧ 21 ≠ uuid.Nil
  ∧ ∃ w', ItemService.UpdateItem server.itemService 21 "Oat milk" 3 true examples.w0
          = (Ok (Item.mk 21 7 "Oat milk" 3 true 12 102), w').
Proof.
  assert (Hname : "Oat milk" ≠ EmptyString) by done.
  assert (Hdb : healthy 2 examples.w0) by constructor.
  assert (Hkey : 21 ≠ uuid.Nil) by done.
  split; [done|]. split; [done|]. split; [done|].
  destruct (item_updates_frame 21 "Oat milk" 3 true examples.w0 0 examples.milk
              Hname Hdb Hkey eq_refl) as (_ & (w' & Hrun & _) & _).
  by exists w'.
Defined.

(** ** Creating a list *)





(** The walk-through of the README on the sample data: an item posted with
    quantity 0 is created with quantity 1, a toggle completes it and a
    second toggle reopens it. *)
Example posted_item_walkthrough :
  let id := uuid.of_random (Z.shiftl 1 120) in
  let created :=
    ItemHandler.CreateItem server.itemHandler
      (mkContext (Ok 7) (Ok (ItemHandler.CreateItemRequest.mk "Eggs" 0))) examples.w0 in
  let once :=
    ItemHandler.ToggleItemCompletion server.itemHandler
      (mkContext (Ok id) (Ok ())) created.2 in
  let twice :=
    ItemHandler.ToggleItemCompletion server.itemHandler
      (mkContext (Ok id) (Ok ())) once.2 in
  created.1 = JSON StatusCreated (JSON_Item (Item.mk id 7 "Eggs" 1 false 102 102))
  ∧ once.1 = JSON StatusOK (JSON_Item (Item.mk id 7 "Eggs" 1 true 102 104))
  ∧ twice.1 = JSON StatusOK (JSON_Item (Item.mk id 7 "Eggs" 1 false 102 106)).
Proof. by vm_compute. Qed.

(** ** Storage failures at the HTTP boundary *)

(** The sibling lookups of the item service hand the repository's error
    on as it is, whatever the repositories are. *)
Lemma item_lookups_pass_errors (s : ItemService.t) (id : UUID) (name : string)
    (quantity : Z) (completed : bool) (w w1 : World) (err : error) :
  ItemRepository.GetByID (ItemService.itemRepo s) id w = (Err err, w1) →
  ItemService.GetItem s id w = (Err err, w1)
  ∧ ItemService.ToggleItemCompletion s id w = (Err err, w1)
  ∧ (name ≠ EmptyString →
     ItemService.UpdateItem s id name quantity completed w = (Err err, w1)).
Proof.
  intros Hget. split_and!.
  - done.
  - unfold ItemService.ToggleItemCompletion. unfold_M. by rewrite Hget.
  - intros Hname. unfold ItemService.UpdateItem. case_decide; [done|].
    unfold_M. by rewrite Hget.
Qed.

(** An error that is none of the domain's is answered with a 500 by the
    item-create and item-update handlers. *)
Lemma foreign_errors_answer_500 (msg : string) :
  ItemHandler.CreateItem_respond (Err (ErrForeign msg))
  = JSON StatusInternalServerError (H_error "Failed to create item")
  ∧ ItemHandler.UpdateItem_respond (Err (ErrForeign msg))
    = JSON StatusInternalServerError (H_error "Failed to update item").
Proof. done. Qed.

(** C2, evaluated.  The list with id 7 is stored, and the connection drops
    on the next statement.  The repository reports the driver's error, as
    its sibling lookups do all the way to a 500; [ItemService.CreateItem]
    replaces it by [ErrShoppingListNotFound], and the client is told 404. *)
Theorem CreateItem_hides_storage_failure :
  7 ∈ gorm.list_ids (store examples.w_down)
  ∧ (PostgresShoppingListRepository.GetByID 7 examples.w_down).1
    = Err (ErrForeign "connection refused")
  ∧ (ItemService.CreateItem server.itemService 7 "Milk" 2 examples.w_down).1
    = Err ErrShoppingListNotFound
  ∧ (ItemHandler.CreateItem server.itemHandler
       (mkContext (Ok 7) (Ok (ItemHandler.CreateItemRequest.mk "Milk" 2)))
       examples.w_down).1
    = JSON StatusNotFound (H_error "Shopping list not found")
  ∧ (ShoppingListHandler.GetShoppingList server.shoppingListHandler
       (mkContext (Ok 7) (Ok ())) examples.w_down).1
    = JSON StatusInternalServerError (H_error "Failed to retrieve shopping list")
  ∧ (ShoppingListHandler.UpdateShoppingList server.shoppingListHandler
       (mkContext (Ok 7) (Ok (ShoppingListHandler.mkShoppingListRequest "Food" "weekly")))
       examples.w_down).1
    = JSON StatusInternalServerError (H_error "Failed to update shopping list").
Proof.
  split; [apply list_elem_of_here|].
  split_and!; by vm_compute.
Qed.

(** * Further properties *)

(** ** The item collection of a list *)

Section item_collection.
Implicit Types (sl : ShoppingList.t) (item : Item.t) (l : list Item.t) (id : UUID).
Local Arguments list_find : simpl never.

(** The loops of [GetItem], [RemoveItem] and [UpdateItem], one step at a time. *)
Lemma find_item_cons id item l :
  list_find (λ x, Item.ID x = id) (item :: l)
  = if decide (Item.ID item = id) then Some (0%nat, item)
    else prod_map S (λ x, x) <$> list_find (λ x, Item.ID x = id) l.
Proof. done. Qed.


Lemma get_app id l item :
  snd <$> list_find (λ x, Item.ID x = id) (l ++ [item])
  = match snd <$> list_find (λ x, Item.ID x = id) l with
    | Some found => Some found
    | None => if decide (Item.ID item = id) then Some item else None
    end.
Proof.
  induction l as [|a l IH]; simpl app; rewrite !find_item_cons.
  - simpl. by case_decide.
  - destruct (decide (Item.ID a = id)); simpl.
    { done. }
    destruct (list_find _ (l ++ [item])) as [[? ?]|];
      destruct (list_find _ l) as [[? ?]|]; simpl in *; congruence.
Qed.

(** X1. [AddItem] writes the list's id into the item and appends it; it
    never looks for a duplicate.  So afterwards [GetItem id] finds what it
    found before, and only when it found nothing and [id] is the new item's
    id does it find the new item: an item added under an id already in the
    list stays hidden behind the earlier one. *)
Theorem AddItem_then_GetItem sl item id :
  let added := ShoppingList.AddItem item sl in
  added.2 = Item.set_ShoppingListID (ShoppingList.ID sl) item
  ∧ ShoppingList.Items added.1 = ShoppingList.Items sl ++ [added.2]
  ∧ ShoppingList.GetItem id added.1
    = match ShoppingList.GetItem id sl with
      | Some found => Some found
      | None => if decide (Item.ID item = id) then Some added.2 else None
      end.
Proof.
  simpl. split; [done|]. split; [done|].
  unfold ShoppingList.GetItem. simpl. by rewrite get_app.
Qed.

(** X2. [GetItem] answers nil exactly when no item of the list has the id;
    an item it answers is in the list, has the id, and is the first such. *)
Theorem GetItem_first_with_id sl id :
  (ShoppingList.GetItem id sl = None
   ↔ Forall (λ x, Item.ID x ≠ id) (ShoppingList.Items sl))
  ∧ (∀ found, ShoppingList.GetItem id sl = Some found →
       Item.ID found = id
       ∧ ∃ front back,
           ShoppingList.Items sl = front ++ found :: back
           ∧ Forall (λ x, Item.ID x ≠ id) front).
Proof.
  unfold ShoppingList.GetItem. split.
  - rewrite fmap_None. apply list_find_None.
  - intros found ([i x] & Hfind & ->)%fmap_Some. simpl.
    apply list_find_Some in Hfind as (Hi & Hid & Hbefore).
    split; [done|].
    exists (take i (ShoppingList.Items sl)), (drop (S i) (ShoppingList.Items sl)).
    split; [by rewrite take_drop_middle|].
    apply Forall_lookup. intros j y Hj.
    pose proof (lookup_lt_Some _ _ _ Hj) as Hlen. rewrite length_take in Hlen.
    apply (Hbefore j y); [|lia]. by rewrite lookup_take_lt in Hj by lia.
Qed.






(** X4. Adding an item under an id the list does not have and removing
    that id again gives back the items the list had. *)
Theorem AddItem_then_RemoveItem sl item
    (Hnew : ShoppingList.GetItem (Item.ID item) sl = None) :
  ShoppingList.Items
    (ShoppingList.RemoveItem (Item.ID item) (ShoppingList.AddItem item sl).1)
  = ShoppingList.Items sl.
Proof.
  apply GetItem_first_with_id in Hnew.
  unfold ShoppingList.AddItem, ShoppingList.RemoveItem. simpl.
  set (new := Item.set_ShoppingListID (ShoppingList.ID sl) item).
  assert (Hfind : list_find (λ x, Item.ID x = Item.ID item) (ShoppingList.Items sl ++ [new])
                  = Some (length (ShoppingList.Items sl), new)).
  { apply list_find_Some. split_and!.
    - by rewrite lookup_app_r, Nat.sub_diag by lia.
    - done.
    - intros j y Hj Hlt. rewrite lookup_app_l in Hj by done.
      rewrite list.Forall_forall in Hnew. apply Hnew. by eapply list_elem_of_lookup_2. }
  rewrite Hfind. simpl.
  rewrite take_app_length, drop_app, drop_ge by lia.
  replace (S (length (ShoppingList.Items sl)) - length (ShoppingList.Items sl))%nat
    with 1%nat by lia.
  simpl. by rewrite app_nil_r.
Qed.

Lemma AddItem_then_RemoveItem_witness :
  ShoppingList.GetItem (Item.ID examples.bread)
    (ShoppingList.set_Items [examples.milk] examples.groceries) = None
  ∧ ShoppingList.Items
      (ShoppingList.RemoveItem (Item.ID examples.bread)
         (ShoppingList.AddItem examples.bread
            (ShoppingList.set_Items [examples.milk] examples.groceries)).1)
    = [examples.milk].
Proof.
  split; [done|].
  apply (AddItem_then_RemoveItem
           (ShoppingList.set_Items [examples.milk] examples.groceries) examples.bread).
  done.
Defined.
Lemma find_insert_other id' l : ∀ i old new,
  l !! i = Some old →
  Item.ID old ≠ id' → Item.ID new ≠ id' →
  list_find (λ x, Item.ID x = id') (<[i := new]> l) = list_find (λ x, Item.ID x = id') l.
Proof.
  induction l as [|a l IH]; intros i old new Hi Hold Hnew; [done|].
  destruct i as [|i]; simpl in *.
  - injection Hi as ->. by rewrite !find_item_cons, !decide_False by done.
  - rewrite !find_item_cons. case_decide; [done|]. by rewrite (IH i old new).
Qed.

(** X5. [ShoppingList.UpdateItem] answers [ErrItemNotFound] exactly when
    [GetItem] finds nothing under the id, and then leaves the list as it
    was.  Otherwise it answers nil, and the item [GetItem] found has its
    name, quantity and completed flag overwritten in place: it keeps its id,
    parent and timestamps, the list keeps its length, and every other id
    still finds what it found. *)
Theorem entity_UpdateItem_in_place sl id name quantity completed :
  let out := ShoppingList.UpdateItem id name quantity completed sl in
  (out.2 = Some ErrItemNotFound ↔ ShoppingList.GetItem id sl = None)
  ∧ (ShoppingList.GetItem id sl = None → out.1 = sl)
  ∧ (∀ old, ShoppingList.GetItem id sl = Some old →
       out.2 = None
       ∧ ShoppingList.GetItem id out.1
         = Some (Item.mk id (Item.ShoppingListID old) name quantity completed
                   (Item.CreatedAt old) (Item.UpdatedAt old))
       ∧ length (ShoppingList.Items out.1) = length (ShoppingList.Items sl)
       ∧ ∀ id', id' ≠ id →
           ShoppingList.GetItem id' out.1 = ShoppingList.GetItem id' sl).
Proof.
  unfold ShoppingList.UpdateItem, ShoppingList.GetItem.
  destruct (list_find _ (ShoppingList.Items sl)) as [[i found]|] eqn:Hfind; simpl.
  - split; [done|]. split; [done|]. intros old [= <-].
    apply list_find_Some in Hfind as (Hi & Hid & Hbefore).
    set (new := Item.set_Completed completed
                  (Item.set_Quantity quantity (Item.set_Name name found))).
    assert (Hnew : Item.mk id (Item.ShoppingListID found) name quantity completed
                     (Item.CreatedAt found) (Item.UpdatedAt found) = new).
    { unfold new. by rewrite <- Hid. }
    rewrite Hnew. split; [done|]. split_and!.
    + assert (Hfind' : list_find (λ x, Item.ID x = id)
                         (<[i := new]> (ShoppingList.Items sl)) = Some (i, new)).
      { apply list_find_Some. split_and!.
        - apply list_lookup_insert_eq. by eapply lookup_lt_Some.
        - done.
        - intros j y Hj Hlt. rewrite list_lookup_insert_ne in Hj by lia.
          by apply (Hbefore j y). }
      by rewrite Hfind'.
    + by rewrite length_insert.
    + intros id' Hne. rewrite (find_insert_other id' _ i found new); [done|done|..].
      * by rewrite Hid.
      * simpl. by rewrite Hid.
  - split; [done|]. split; [done|]. by intros old.
Qed.
End item_collection.

(** ** What a statement does to the world *)

Lemma round_trip_eq w :
  gorm.round_trip w
  = (default None (head (faults w)),
     mkWorld (store w) (tail (faults w)) (clock w + 1) (rand w)).
Proof.
  unfold gorm.round_trip, set_clock, set_faults. simpl. by destruct (faults w).
Qed.

Lemma list_ids_update id new rows :
  ShoppingList.ID new = id →
  ShoppingList.ID <$> gorm.update_lists id new rows = ShoppingList.ID <$> rows.
Proof.
  intros Hnew. unfold gorm.update_lists. rewrite <- list_fmap_compose.
  apply list_fmap_ext. intros i r _. simpl. case_decide; congruence.
Qed.

Lemma item_ids_update id new rows :
  Item.ID new = id →
  Item.ID <$> gorm.update_items id new rows = Item.ID <$> rows.
Proof.
  intros Hnew. unfold gorm.update_items. rewrite <- list_fmap_compose.
  apply list_fmap_ext. intros i r _. simpl. case_decide; congruence.
Qed.

Lemma elem_of_update_items id new rows r :
  r ∈ gorm.update_items id new rows → r = new ∨ r ∈ rows.
Proof.
  unfold gorm.update_items. intros (r0 & -> & Hr0)%list_elem_of_fmap.
  case_decide; auto.
Qed.

Lemma consistent_add_list s row :
  consistent s →
  ShoppingList.ID row ∉ gorm.list_ids s →
  consistent (mkStore (shopping_lists s ++ [row]) (items s)).
Proof.
  intros [[Hl Hi] Hatt] Hnew. unfold consistent, keys_unique, items_attached, gorm.list_ids,
    gorm.item_ids in *. simpl. rewrite fmap_app. split_and!; [|done|].
  - apply list.NoDup_app. split_and!; [done| |apply NoDup_singleton].
    intros x Hx ->%list_elem_of_singleton. done.
  - intros item Hitem. apply elem_of_app. left. by apply Hatt.
Qed.

Lemma consistent_add_item s item :
  consistent s →
  Item.ID item ∉ gorm.item_ids s →
  Item.ShoppingListID item ∈ gorm.list_ids s →
  consistent (mkStore (shopping_lists s) (items s ++ [item])).
Proof.
  intros [[Hl Hi] Hatt] Hnew Hlist. unfold consistent, keys_unique, items_attached,
    gorm.list_ids, gorm.item_ids in *. simpl. rewrite fmap_app. split_and!; [done| |].
  - apply list.NoDup_app. split_and!; [done| |apply NoDup_singleton].
    intros x Hx ->%list_elem_of_singleton. done.
  - intros r [Hr| ->%list_elem_of_singleton]%elem_of_app; [by apply Hatt|done].
Qed.

(** Inserts: an error leaves the world as it was; a success keeps the
    tables consistent. *)
Lemma insert_ShoppingList_spec l w :
  let out := gorm.insert_ShoppingList l w in
  (is_Some (gorm.Error out.1.2) → out.2 = w)
  ∧ (consistent (store w) → consistent (store out.2))
  ∧ rand out.2 = rand w.
Proof.
  unfold gorm.insert_ShoppingList. case_decide as Hin; simpl; [done|].
  split_and!; [by intros [? ?] | | done].
  intros Hc. by apply consistent_add_list.
Qed.

Lemma insert_Item_spec i w :
  let out := gorm.insert_Item i w in
  (is_Some (gorm.Error out.1.2) → out.2 = w)
  ∧ (consistent (store w) → Item.ShoppingListID i ∈ gorm.list_ids (store w) →
     consistent (store out.2))
  ∧ rand out.2 = rand w.
Proof.
  unfold gorm.insert_Item. case_decide as Hin; simpl; [done|].
  split_and!; [by intros [? ?] | | done].
  intros Hc Hlist. by apply consistent_add_item.
Qed.

Lemma NoDup_fmap_filter {A B} (f : A → B) (P : A → Prop) `{∀ x, Decision (P x)} (l : list A) :
  NoDup (f <$> l) → NoDup (f <$> filter P l).
Proof.
  intros Hl. eapply sublist_NoDup; [exact Hl|].
  apply fmap_sublist, sublist_filter.
Qed.

Lemma filter_none_keeps_all {A} (P : A → Prop) `{∀ x, Decision (P x)} (l : list A) :
  length (filter P l) = 0%nat → filter (λ x, ¬ P x) l = l.
Proof.
  induction l as [|a l IH]; [done|]. rewrite !filter_cons.
  destruct (decide (P a)); simpl; [done|]. intros Hlen.
  rewrite decide_True by done. by rewrite IH.
Qed.

Lemma filter_some_has {A} (P : A → Prop) `{∀ x, Decision (P x)} (l : list A) (a : A) :
  a ∈ l → P a → length (filter P l) ≠ 0%nat.
Proof.
  intros Ha HP Hlen. apply length_zero_iff_nil in Hlen.
  assert (Hin : a ∈ filter P l) by by apply list_elem_of_filter.
  rewrite Hlen in Hin. by apply elem_of_nil in Hin.
Qed.

Lemma store_eta s : mkStore (shopping_lists s) (items s) = s.
Proof. by destruct s. Qed.

(** *** Reads leave the tables and the random source alone *)

Lemma repo_reads_frame id w :
  (store (PostgresShoppingListRepository.GetByID id w).2 = store w
   ∧ rand (PostgresShoppingListRepository.GetByID id w).2 = rand w)
  ∧ (store (PostgresShoppingListRepository.GetAll w).2 = store w
     ∧ rand (PostgresShoppingListRepository.GetAll w).2 = rand w)
  ∧ (store (PostgresItemRepository.GetByID id w).2 = store w
     ∧ rand (PostgresItemRepository.GetByID id w).2 = rand w)
  ∧ (store (PostgresItemRepository.GetByShoppingListID id w).2 = store w
     ∧ rand (PostgresItemRepository.GetByShoppingListID id w).2 = rand w).
Proof.
  split; [apply list_GetByID_frame|].
  unfold PostgresShoppingListRepository.GetAll, gorm.Find_ShoppingLists,
    PostgresItemRepository.GetByID, gorm.First_Item,
    PostgresItemRepository.GetByShoppingListID, gorm.Find_Items_by_list.
  unfold_M. rewrite round_trip_eq.
  destruct (head (faults w)) as [[msg|]|]; simpl; split_and!; try done;
    by destruct (list_find _ _) as [[? ?]|].
Qed.

(** What the lookups answer, whatever the connection does. *)
Lemma list_GetByID_cases id w :
  (PostgresShoppingListRepository.GetByID id w).1
  = match head (faults w) with
    | Some (Some msg) => Err (ErrForeign msg)
    | _ => match list_find (λ r, ShoppingList.ID r = id) (shopping_lists (store w)) with
           | Some (_, row) => Ok row
           | None => Err ErrShoppingListNotFound
           end
    end.
Proof.
  unfold PostgresShoppingListRepository.GetByID, gorm.First_ShoppingList.
  unfold_M. rewrite round_trip_eq.
  destruct (head (faults w)) as [[msg|]|]; simpl; try done;
    by destruct (list_find _ _) as [[? ?]|].
Qed.

Lemma item_GetByID_cases id w :
  (PostgresItemRepository.GetByID id w).1
  = match head (faults w) with
    | Some (Some msg) => Err (ErrForeign msg)
    | _ => match list_find (λ r, Item.ID r = id) (items (store w)) with
           | Some (_, row) => Ok row
           | None => Err ErrItemNotFound
           end
    end.
Proof.
  unfold PostgresItemRepository.GetByID, gorm.First_Item.
  unfold_M. rewrite round_trip_eq.
  destruct (head (faults w)) as [[msg|]|]; simpl; try done;
    by destruct (list_find _ _) as [[? ?]|].
Qed.

Lemma list_GetByID_Ok id w row :
  (PostgresShoppingListRepository.GetByID id w).1 = Ok row →
  ShoppingList.ID row = id ∧ row ∈ shopping_lists (store w) ∧ id ∈ gorm.list_ids (store w).
Proof.
  rewrite list_GetByID_cases.
  destruct (head (faults w)) as [[msg|]|]; try done;
    destruct (list_find _ _) as [[i r]|] eqn:Hfind; try done; intros [= <-];
    apply list_find_Some in Hfind as (Hi & Hid & _);
    (split; [done|]); apply list_elem_of_lookup_2 in Hi;
    (split; [done|]); unfold gorm.list_ids; rewrite <- Hid; by apply list_elem_of_fmap_2.
Qed.

Lemma item_GetByID_Ok id w row :
  (PostgresItemRepository.GetByID id w).1 = Ok row →
  Item.ID row = id ∧ row ∈ items (store w).
Proof.
  rewrite item_GetByID_cases.
  destruct (head (faults w)) as [[msg|]|]; try done;
    destruct (list_find _ _) as [[i r]|] eqn:Hfind; try done; intros [= <-];
    apply list_find_Some in Hfind as (Hi & Hid & _);
    (split; [done|]); by apply list_elem_of_lookup_2 in Hi.
Qed.

(** *** Writes: an error changes no table, a success keeps them consistent *)

Lemma list_Create_spec l w :
  let out := PostgresShoppingListRepository.Create l w in
  (is_Some out.1.2 → store out.2 = store w)
  ∧ (consistent (store w) → consistent (store out.2))
  ∧ items (store out.2) = items (store w).
Proof.
  unfold PostgresShoppingListRepository.Create, gorm.Create_ShoppingList.
  unfold_M. rewrite round_trip_eq.
  destruct (head (faults w)) as [[msg|]|]; simpl; try done.
  all: unfold gorm.insert_ShoppingList; simpl; case_decide; simpl; try done.
  all: split_and!; [by intros [? ?] | | done].
  all: intros Hc; by apply consistent_add_list.
Qed.

Lemma item_Create_spec i w :
  let out := PostgresItemRepository.Create i w in
  (is_Some out.1.2 → store out.2 = store w)
  ∧ (consistent (store w) → Item.ShoppingListID i ∈ gorm.list_ids (store w) →
     consistent (store out.2))
  ∧ shopping_lists (store out.2) = shopping_lists (store w).
Proof.
  unfold PostgresItemRepository.Create, gorm.Create_Item.
  unfold_M. rewrite round_trip_eq.
  destruct (head (faults w)) as [[msg|]|]; simpl; try done.
  all: unfold gorm.insert_Item; simpl; case_decide; simpl; try done.
  all: split_and!; [by intros [? ?] | | done].
  all: intros Hc Hlist; by apply consistent_add_item.
Qed.

Ltac by_insert Hins :=
  match goal with
  | |- context [gorm.insert_ShoppingList ?l ?w'] =>
      let H := fresh in
      pose proof (Hins l w' eq_refl) as H; cbv zeta in H;
      destruct (gorm.insert_ShoppingList l w') as [[? ?] ?]; simpl in *; exact H
  | |- context [gorm.insert_Item ?i ?w'] =>
      let H := fresh in
      pose proof (Hins i w' eq_refl eq_refl) as H; cbv zeta in H;
      destruct (gorm.insert_Item i w') as [[? ?] ?]; simpl in *; exact H
  end.

Lemma list_Update_spec l w :
  let out := PostgresShoppingListRepository.Update l w in
  (is_Some out.1.2 → store out.2 = store w)
  ∧ (consistent (store w) → consistent (store out.2))
  ∧ items (store out.2) = items (store w).
Proof.
  unfold PostgresShoppingListRepository.Update, gorm.Save_ShoppingList.
  unfold_M. rewrite round_trip_eq.
  set (w1 := mkWorld (store w) (tail (faults w)) (clock w + 1) (rand w)).
  assert (Hins : ∀ l' w', store w' = store w →
            let out := gorm.insert_ShoppingList l' w' in
            (is_Some (gorm.Error out.1.2) → store out.2 = store w)
            ∧ (consistent (store w) → consistent (store out.2))
            ∧ items (store out.2) = items (store w)).
  { intros l' w' Hs. unfold gorm.insert_ShoppingList. rewrite Hs.
    case_decide; simpl; [by rewrite Hs|].
    split_and!; [by intros [? ?] | | done].
    intros Hc. by apply consistent_add_list. }
  assert (Hupd : ∀ w', store w' = store w →
            consistent (store w) →
            consistent (mkStore
              (gorm.update_lists (ShoppingList.ID l)
                 (gorm.list_row (ShoppingList.set_UpdatedAt (clock w') l))
                 (shopping_lists (store w)))
              (items (store w)))).
  { intros w' Hs [[Hl Hi] Hatt].
    unfold consistent, keys_unique, items_attached, gorm.list_ids, gorm.item_ids in *.
    simpl. by rewrite list_ids_update. }
  destruct (head (faults w)) as [[msg|]|]; simpl; try done.
  all: case_decide; [by_insert Hins|]; simpl.
  all: case_decide; simpl;
    [split_and!; [by intros [? ?] | by apply (Hupd w1) | done]|].
  all: rewrite round_trip_eq; simpl.
  all: destruct (head (tail (faults w))) as [[msg|]|]; simpl; try done.
  all: by_insert Hins.
Qed.

Lemma item_Update_spec i w :
  let out := PostgresItemRepository.Update i w in
  (is_Some out.1.2 → store out.2 = store w)
  ∧ (consistent (store w) → Item.ShoppingListID i ∈ gorm.list_ids (store w) →
     consistent (store out.2))
  ∧ shopping_lists (store out.2) = shopping_lists (store w).
Proof.
  unfold PostgresItemRepository.Update, gorm.Save_Item.
  unfold_M. rewrite round_trip_eq.
  set (w1 := mkWorld (store w) (tail (faults w)) (clock w + 1) (rand w)).
  assert (Hins : ∀ i' w', store w' = store w →
            Item.ShoppingListID i' = Item.ShoppingListID i →
            let out := gorm.insert_Item i' w' in
            (is_Some (gorm.Error out.1.2) → store out.2 = store w)
            ∧ (consistent (store w) → Item.ShoppingListID i ∈ gorm.list_ids (store w) →
               consistent (store out.2))
            ∧ shopping_lists (store out.2) = shopping_lists (store w)).
  { intros i' w' Hs Hsame. unfold gorm.insert_Item. rewrite Hs.
    case_decide; simpl; [by rewrite Hs|].
    split_and!; [by intros [? ?] | | done].
    intros Hc Hlist. apply consistent_add_item; [done|done|]. simpl. by rewrite Hsame. }
  assert (Hupd : ∀ w', store w' = store w →
            consistent (store w) → Item.ShoppingListID i ∈ gorm.list_ids (store w) →
            consistent (mkStore (shopping_lists (store w))
              (gorm.update_items (Item.ID i) (Item.set_UpdatedAt (clock w') i)
                 (items (store w))))).
  { intros w' Hs [[Hl Hi] Hatt] Hlist.
    unfold consistent, keys_unique, items_attached, gorm.list_ids, gorm.item_ids in *.
    simpl. rewrite item_ids_update by done. split_and!; [done|done|].
    intros r [-> | Hr]%elem_of_update_items; [done|by apply Hatt]. }
  destruct (head (faults w)) as [[msg|]|]; simpl; try done.
  all: case_decide; [by_insert Hins|]; simpl.
  all: case_decide; simpl;
    [split_and!; [by intros [? ?] | by apply (Hupd w1) | done]|].
  all: rewrite round_trip_eq; simpl.
  all: destruct (head (tail (faults w))) as [[msg|]|]; simpl; try done.
  all: by_insert Hins.
Qed.

Lemma list_Delete_spec id w :
  let out := PostgresShoppingListRepository.Delete id w in
  (is_Some out.1 → store out.2 = store w)
  ∧ (consistent (store w) → consistent (store out.2)).
Proof.
  unfold PostgresShoppingListRepository.Delete, gorm.Delete_ShoppingList.
  unfold_M. rewrite round_trip_eq.
  assert (Hdel :
    let rows := shopping_lists (store w) in
    let n := length (filter (λ r, ShoppingList.ID r = id) rows) in
    let s' := mkStore (filter (λ r, ShoppingList.ID r ≠ id) rows)
                (if decide (n = 0%nat) then items (store w)
                 else filter (λ r, Item.ShoppingListID r ≠ id) (items (store w))) in
    (Z.of_nat n = 0 → s' = store w) ∧ (consistent (store w) → consistent s')).
  { simpl. split.
    - intros Hn. assert (Hn' : length (filter (λ r, ShoppingList.ID r = id)
                                          (shopping_lists (store w))) = 0%nat) by lia.
      rewrite decide_True by done.
      rewrite (filter_none_keeps_all _ _ Hn'). apply store_eta.
    - intros [[Hl Hi] Hatt].
      unfold consistent, keys_unique, items_attached, gorm.list_ids, gorm.item_ids in *.
      simpl. split_and!.
      + by apply NoDup_fmap_filter.
      + case_decide; [done|]. by apply NoDup_fmap_filter.
      + intros item Hitem.
        assert (Hin : item ∈ items (store w) ∧ Item.ShoppingListID item ≠ id).
        { case_decide as Hn.
          - split; [done|]. intros Hid.
            destruct (proj1 (list_elem_of_fmap _ _ _) (Hatt item Hitem))
              as (row & Hrow & Hrows).
            apply (filter_some_has (λ r, ShoppingList.ID r = id) _ row) in Hn; [done|done|].
            by rewrite <- Hrow.
          - apply list_elem_of_filter in Hitem. tauto. }
        destruct Hin as [Hin Hne].
        destruct (proj1 (list_elem_of_fmap _ _ _) (Hatt item Hin)) as (row & Hrow & Hrows).
        apply list_elem_of_fmap. exists row. split; [done|].
        apply list_elem_of_filter. split; [congruence|done]. }
  simpl in Hdel. destruct Hdel as [Hzero Hcons].
  destruct (head (faults w)) as [[msg|]|]; simpl; try done.
  all: destruct (decide (Z.of_nat (length (filter (λ r, ShoppingList.ID r = id)
                                            (shopping_lists (store w)))) = 0))
         as [Hn|Hn]; simpl; (split; [|exact Hcons]).
  all: try (intros _; by apply Hzero).
  all: by intros [? ?].
Qed.

Lemma item_Delete_spec id w :
  let out := PostgresItemRepository.Delete id w in
  (is_Some out.1 → store out.2 = store w)
  ∧ (consistent (store w) → consistent (store out.2))
  ∧ shopping_lists (store out.2) = shopping_lists (store w).
Proof.
  unfold PostgresItemRepository.Delete, gorm.Delete_Item.
  unfold_M. rewrite round_trip_eq.
  assert (Hdel :
    let rows := items (store w) in
    let s' := mkStore (shopping_lists (store w)) (filter (λ r, Item.ID r ≠ id) rows) in
    (Z.of_nat (length (filter (λ r, Item.ID r = id) rows)) = 0 → s' = store w)
    ∧ (consistent (store w) → consistent s')).
  { simpl. split.
    - intros Hn. assert (Hn' : length (filter (λ r, Item.ID r = id)
                                          (items (store w))) = 0%nat) by lia.
      rewrite (filter_none_keeps_all _ _ Hn'). apply store_eta.
    - intros [[Hl Hi] Hatt].
      unfold consistent, keys_unique, items_attached, gorm.list_ids, gorm.item_ids in *.
      simpl. split_and!; [done | by apply NoDup_fmap_filter |].
      intros item [_ Hitem]%list_elem_of_filter. by apply Hatt. }
  simpl in Hdel. destruct Hdel as [Hzero Hcons].
  destruct (head (faults w)) as [[msg|]|]; simpl; try done.
  all: case_decide as Hn; simpl; (split; [|by split]).
  all: try (intros _; by apply Hzero).
  all: by intros [? ?].
Qed.

(** ** The services over gorm, whatever the connection does *)

Lemma load_each_frame lists : ∀ w,
  store (ShoppingListService.load_each server.shoppingListService lists w).2 = store w.
Proof.
  induction lists as [|sl lists IH]; intros w; [done|].
  simpl. unfold_M.
  destruct (repo_reads_frame (ShoppingList.ID sl) w) as (_ & _ & _ & Hs & _).
  destruct (PostgresItemRepository.GetByShoppingListID (ShoppingList.ID sl) w)
    as [[rows|err] w1]; simpl in *; [|done].
  specialize (IH w1).
  destruct (ShoppingListService.load_each server.shoppingListService lists w1)
    as [[rest|err] w2]; simpl in *; congruence.
Qed.

(** The five reading operations change no table. *)
Lemma reads_change_nothing id w :
  store (ShoppingListService.GetShoppingList server.shoppingListService id w).2 = store w
  ∧ store (ShoppingListService.GetAllShoppingLists server.shoppingListService w).2 = store w
  ∧ store (ItemService.GetItem server.itemService id w).2 = store w
  ∧ store (ItemService.GetItemsByShoppingListID server.itemService id w).2 = store w.
Proof.
  split_and!.
  - unfold ShoppingListService.GetShoppingList. unfold_M. simpl.
    destruct (repo_reads_frame id w) as ((Hs & _) & _).
    destruct (PostgresShoppingListRepository.GetByID id w) as [[sl|err] w1];
      simpl in *; [|done].
    destruct (repo_reads_frame id w1) as (_ & _ & _ & Hs1 & _).
    destruct (PostgresItemRepository.GetByShoppingListID id w1) as [[rows|err] w2];
      simpl in *; congruence.
  - unfold ShoppingListService.GetAllShoppingLists. unfold_M. simpl.
    destruct (repo_reads_frame id w) as (_ & (Hs & _) & _).
    destruct (PostgresShoppingListRepository.GetAll w) as [[lists|err] w1];
      simpl in *; [|done].
    by rewrite load_each_frame.
  - by destruct (repo_reads_frame id w) as (_ & _ & (Hs & _) & _).
  - by destruct (repo_reads_frame id w) as (_ & _ & _ & Hs & _).
Qed.

Lemma CreateShoppingList_spec name description w :
  let out := ShoppingListService.CreateShoppingList server.shoppingListService
               name description w in
  (is_Err out.1 → store out.2 = store w)
  ∧ (consistent (store w) → consistent (store out.2)).
Proof.
  unfold ShoppingListService.CreateShoppingList. case_decide; [done|].
  unfold_M. unfold with_rand. simpl.
  match goal with |- context [PostgresShoppingListRepository.Create ?l ?w'] =>
    pose proof (list_Create_spec l w') as Hspec; cbv zeta in Hspec;
    destruct (PostgresShoppingListRepository.Create l w') as [[sl [err|]] w1]
  end; simpl in *; destruct Hspec as (Herr & Hcons & _); split; auto; try done;
    try (intros _; by apply Herr);
    try (intros [Hk Hatt]; apply Hcons; [by split|]; by apply Hatt).
Qed.

Lemma UpdateShoppingList_spec id name description w :
  let out := ShoppingListService.UpdateShoppingList server.shoppingListService
               id name description w in
  (is_Err out.1 → store out.2 = store w)
  ∧ (consistent (store w) → consistent (store out.2)).
Proof.
  unfold ShoppingListService.UpdateShoppingList. case_decide; [done|].
  unfold_M. simpl.
  destruct (repo_reads_frame id w) as ((Hs & _) & _).
  destruct (PostgresShoppingListRepository.GetByID id w) as [[sl|err] w1];
    simpl in *; [|by rewrite Hs].
  match goal with |- context [PostgresShoppingListRepository.Update ?l ?w'] =>
    pose proof (list_Update_spec l w') as Hspec; cbv zeta in Hspec;
    destruct (PostgresShoppingListRepository.Update l w') as [[sl' [err|]] w2]
  end; simpl in *; destruct Hspec as (Herr & Hcons & _); rewrite Hs in *; split; auto; try done;
    try (intros _; by apply Herr);
    try (intros [Hk Hatt]; apply Hcons; [by split|]; by apply Hatt).
Qed.

Lemma DeleteShoppingList_spec id w :
  let out := ShoppingListService.DeleteShoppingList server.shoppingListService id w in
  (is_Some out.1 → store out.2 = store w)
  ∧ (consistent (store w) → consistent (store out.2)).
Proof. apply list_Delete_spec. Qed.

Lemma CreateItem_spec listID name quantity w :
  let out := ItemService.CreateItem server.itemService listID name quantity w in
  (is_Err out.1 → store out.2 = store w)
  ∧ (consistent (store w) → consistent (store out.2)).
Proof.
  unfold ItemService.CreateItem. case_decide; [done|].
  unfold_M. simpl.
  destruct (repo_reads_frame listID w) as ((Hs & _) & _).
  pose proof (list_GetByID_Ok listID w) as Hok.
  destruct (PostgresShoppingListRepository.GetByID listID w) as [[sl|err] w1];
    simpl in *; [|by rewrite Hs].
  destruct (Hok sl eq_refl) as (_ & _ & Hin).
  unfold with_rand. simpl.
  match goal with |- context [PostgresItemRepository.Create ?i ?w'] =>
    pose proof (item_Create_spec i w') as Hspec; cbv zeta in Hspec;
    destruct (PostgresItemRepository.Create i w') as [[item [err|]] w2]
  end; simpl in *; destruct Hspec as (Herr & Hcons & _); rewrite Hs in *; split; auto; try done;
    try (intros _; by apply Herr);
    try (intros [Hk Hatt]; apply Hcons; [by split|]; by apply Hatt).
Qed.

Lemma UpdateItem_spec id name quantity completed w :
  let out := ItemService.UpdateItem server.itemService id name quantity completed w in
  (is_Err out.1 → store out.2 = store w)
  ∧ (consistent (store w) → consistent (store out.2)).
Proof.
  unfold ItemService.UpdateItem. case_decide; [done|].
  unfold_M. simpl.
  destruct (repo_reads_frame id w) as (_ & _ & (Hs & _) & _).
  pose proof (item_GetByID_Ok id w) as Hok.
  destruct (PostgresItemRepository.GetByID id w) as [[item|err] w1];
    simpl in *; [|by rewrite Hs].
  destruct (Hok item eq_refl) as (_ & Hin).
  match goal with |- context [PostgresItemRepository.Update ?i ?w'] =>
    pose proof (item_Update_spec i w') as Hspec; cbv zeta in Hspec;
    destruct (PostgresItemRepository.Update i w') as [[item' [err|]] w2]
  end; simpl in *; destruct Hspec as (Herr & Hcons & _); rewrite Hs in *; split; auto; try done;
    try (intros _; by apply Herr);
    try (intros [Hk Hatt]; apply Hcons; [by split|]; by apply Hatt).
Qed.

Lemma ToggleItemCompletion_spec id w :
  let out := ItemService.ToggleItemCompletion server.itemService id w in
  (is_Err out.1 → store out.2 = store w)
  ∧ (consistent (store w) → consistent (store out.2)).
Proof.
  unfold ItemService.ToggleItemCompletion.
  unfold_M. simpl.
  destruct (repo_reads_frame id w) as (_ & _ & (Hs & _) & _).
  pose proof (item_GetByID_Ok id w) as Hok.
  destruct (PostgresItemRepository.GetByID id w) as [[item|err] w1];
    simpl in *; [|by rewrite Hs].
  destruct (Hok item eq_refl) as (_ & Hin).
  assert (Hsame : Item.ShoppingListID
                    (if Item.Completed item then Item.MarkIncomplete item
                     else Item.MarkCompleted item) = Item.ShoppingListID item)
    by by destruct (Item.Completed item).
  match goal with |- context [PostgresItemRepository.Update ?i ?w'] =>
    pose proof (item_Update_spec i w') as Hspec; cbv zeta in Hspec;
    destruct (PostgresItemRepository.Update i w') as [[item' [err|]] w2]
  end; simpl in *; destruct Hspec as (Herr & Hcons & _); rewrite Hs, Hsame in *; split; auto; try done;
    try (intros _; by apply Herr);
    try (intros [Hk Hatt]; apply Hcons; [by split|]; by apply Hatt).
Qed.

Lemma DeleteItem_spec id w :
  let out := ItemService.DeleteItem server.itemService id w in
  (is_Some out.1 → store out.2 = store w)
  ∧ (consistent (store w) → consistent (store out.2)).
Proof.
  destruct (item_Delete_spec id w) as (H1 & H2 & _). by split.
Qed.

(** ** Requests through the router *)

Ltac codes :=
  unfold routes.reply_code, StatusOK, StatusCreated, StatusNoContent, StatusBadRequest,
    StatusNotFound, StatusInternalServerError in *; simpl in *.

(** One service call inside a handler: [call] is the call, [spec] what is
    known about it. *)
Ltac through call spec :=
  let Hspec := fresh "Hspec" in
  let Herr := fresh "Herr" in
  let Hcons := fresh "Hcons" in
  unfold_M; pose proof spec as Hspec; cbv zeta in Hspec;
  let r := fresh "r" in
  destruct call as [r ?]; destruct r; simpl in *; destruct Hspec as [Herr Hcons];
  repeat case_decide; simpl;
  (split; [intros Hcode; first [by apply Herr | codes; lia] | exact Hcons]).

Lemma read_spec {A} (out : A * World) w (failed : Prop) :
  store out.2 = store w →
  (failed → store out.2 = store w) ∧ (consistent (store w) → consistent (store out.2)).
Proof. intros ->. by split. Qed.

Lemma router_spec req w :
  let out := main.router req w in
  (400 ≤ routes.reply_code out.1 → store out.2 = store w)
  ∧ (consistent (store w) → consistent (store out.2)).
Proof.
  unfold main.router, routes.SetupRoutes.
  destruct (reads_change_nothing
              (match req with
               | routes.GET_lists_id (Ok id) | routes.GET_shopping_lists_items (Ok id)
               | routes.GET_items_id (Ok id) => id
               | _ => 0
               end) w) as (Hget & Hall & Hitem & Hitems).
  destruct req as [body| |id|id body|id|id body|id|id|id body|id|id|];
    unfold fmap, M_fmap.
  - unfold ShoppingListHandler.CreateShoppingList. simpl.
    destruct body as [req|err]; simpl; [|done].
    through (ShoppingListService.CreateShoppingList server.shoppingListService
               (ShoppingListHandler.Name req) (ShoppingListHandler.Description req) w)
            (CreateShoppingList_spec (ShoppingListHandler.Name req)
               (ShoppingListHandler.Description req) w).
  - unfold ShoppingListHandler.GetAllShoppingLists. simpl.
    through (ShoppingListService.GetAllShoppingLists server.shoppingListService w)
            (read_spec _ w (is_Err (ShoppingListService.GetAllShoppingLists
                                      server.shoppingListService w).1) Hall).
  - unfold ShoppingListHandler.GetShoppingList. simpl.
    destruct id as [id|err]; simpl; [|done].
    through (ShoppingListService.GetShoppingList server.shoppingListService id w)
            (read_spec _ w (is_Err (ShoppingListService.GetShoppingList
                                      server.shoppingListService id w).1) Hget).
  - unfold ShoppingListHandler.UpdateShoppingList. simpl.
    destruct id as [id|err]; simpl; [|done].
    destruct body as [req|err]; simpl; [|done].
    through (ShoppingListService.UpdateShoppingList server.shoppingListService id
               (ShoppingListHandler.Name req) (ShoppingListHandler.Description req) w)
            (UpdateShoppingList_spec id (ShoppingListHandler.Name req)
               (ShoppingListHandler.Description req) w).
  - unfold ShoppingListHandler.DeleteShoppingList. simpl.
    destruct id as [id|err]; simpl; [|done].
    through (ShoppingListService.DeleteShoppingList server.shoppingListService id w)
            (DeleteShoppingList_spec id w).
  - unfold ItemHandler.CreateItem. simpl.
    destruct id as [id|err]; simpl; [|done].
    destruct body as [req|err]; simpl; [|done].
    unfold_M. unfold ItemHandler.CreateItem_respond.
    match goal with |- context [ItemService.CreateItem server.itemService id ?n ?q w] =>
      through (ItemService.CreateItem server.itemService id n q w)
              (CreateItem_spec id n q w)
    end.
  - unfold ItemHandler.GetItemsByShoppingListID. simpl.
    destruct id as [id|err]; simpl; [|done].
    through (ItemService.GetItemsByShoppingListID server.itemService id w)
            (read_spec _ w (is_Err (ItemService.GetItemsByShoppingListID
                                      server.itemService id w).1) Hitems).
  - unfold ItemHandler.GetItem. simpl.
    destruct id as [id|err]; simpl; [|done].
    through (ItemService.GetItem server.itemService id w)
            (read_spec _ w (is_Err (ItemService.GetItem server.itemService id w).1) Hitem).
  - unfold ItemHandler.UpdateItem. simpl.
    destruct id as [id|err]; simpl; [|done].
    destruct body as [req|err]; simpl; [|done].
    unfold_M. unfold ItemHandler.UpdateItem_respond.
    match goal with
    | |- context [ItemService.UpdateItem server.itemService id ?n ?q ?c w] =>
      through (ItemService.UpdateItem server.itemService id n q c w)
              (UpdateItem_spec id n q c w)
    end.
  - unfold ItemHandler.DeleteItem. simpl.
    destruct id as [id|err]; simpl; [|done].
    through (ItemService.DeleteItem server.itemService id w) (DeleteItem_spec id w).
  - unfold ItemHandler.ToggleItemCompletion. simpl.
    destruct id as [id|err]; simpl; [|done].
    through (ItemService.ToggleItemCompletion server.itemService id w)
            (ToggleItemCompletion_spec id w).
  - done.
Qed.

Lemma error_reply_changes_nothing_aux req w :
  400 ≤ routes.reply_code (main.router req w).1 → store (main.router req w).2 = store w.
Proof. apply router_spec. Qed.

Lemma sample_consistent : consistent (store examples.w0).
Proof.
  split; [split; apply (bool_decide_unpack _); by vm_compute|].
  intros item Hitem. simpl in Hitem.
  repeat (apply elem_of_cons in Hitem as [->|Hitem]);
    [| | |by apply elem_of_nil in Hitem];
    apply (bool_decide_unpack _); by vm_compute.
Qed.

(** X6. A request that the service answers with an error status (400 or
    above) has changed neither table, whatever the connection did on the
    way: every operation writes at most once, and after every check. *)
Theorem error_reply_changes_nothing (req : routes.Request) (w : World)
    (Hcode : 400 ≤ routes.reply_code (main.router req w).1) :
  store (main.router req w).2 = store w.
Proof. by apply router_spec. Qed.

Lemma error_reply_changes_nothing_witness :
  400 ≤ routes.reply_code (main.router (routes.DELETE_lists_id (Ok 9)) examples.w0).1
  ∧ store (main.router (routes.DELETE_lists_id (Ok 9)) examples.w0).2 = store examples.w0.
Proof.
  assert (Hcode : 400 ≤ routes.reply_code
                          (main.router (routes.DELETE_lists_id (Ok 9)) examples.w0).1).
  { by vm_compute. }
  split; [done|].
  apply (error_reply_changes_nothing (routes.DELETE_lists_id (Ok 9)) examples.w0 Hcode).
Defined.

(** X7. Serving any sequence of requests from consistent tables (unique
    keys, every item attached to a stored list) leaves consistent tables,
    whatever the requests are and wherever the connection drops: an item is
    only inserted after its list was found, an update keeps key and parent,
    and deleting a list takes its items along. *)
Theorem serve_keeps_consistent (reqs : list routes.Request) (w : World)
    (Hcons : consistent (store w)) :
  consistent (store (main.serve reqs w).2).
Proof.
  revert w Hcons. induction reqs as [|req reqs IH]; intros w Hcons; [done|].
  simpl. unfold_M.
  destruct (router_spec req w) as [_ Hstep]. specialize (Hstep Hcons).
  destruct (main.router req w) as [reply w1]. simpl in Hstep.
  specialize (IH w1 Hstep).
  by destruct (main.serve reqs w1) as [replies w2].
Qed.

Lemma serve_keeps_consistent_witness :
  consistent (store examples.w0)
  ∧ consistent
      (store (main.serve
                [routes.POST_shopping_lists_items (Ok 7)
                   (Ok (ItemHandler.CreateItemRequest.mk "Eggs" 0));
                 routes.DELETE_lists_id (Ok 7);
                 routes.PATCH_items_id_toggle (Ok 22)]
                examples.w_down).2).
Proof.
  split; [apply sample_consistent|].
  apply (serve_keeps_consistent _ examples.w_down sample_consistent).
Defined.

(** X8. A GET request changes neither table, whatever it is answered. *)
Theorem get_requests_read_only (req : routes.Request) (w : World)
    (Hget : routes.method req = "GET") :
  store (main.router req w).2 = store w.
Proof.
  destruct req as [body| |id|id body|id|id body|id|id|id body|id|id|];
    try discriminate Hget; unfold main.router, routes.SetupRoutes, fmap, M_fmap.
  - unfold ShoppingListHandler.GetAllShoppingLists. unfold_M. simpl.
    destruct (reads_change_nothing 0 w) as (_ & H & _).
    by destruct (ShoppingListService.GetAllShoppingLists _ w) as [[?|?] ?].
  - unfold ShoppingListHandler.GetShoppingList. simpl.
    destruct id as [id|err]; simpl; [|done]. unfold_M.
    destruct (reads_change_nothing id w) as (H & _).
    destruct (ShoppingListService.GetShoppingList _ id w) as [[?|?] ?]; [done|].
    by case_decide.
  - unfold ItemHandler.GetItemsByShoppingListID. simpl.
    destruct id as [id|err]; simpl; [|done]. unfold_M.
    destruct (reads_change_nothing id w) as (_ & _ & _ & H).
    by destruct (ItemService.GetItemsByShoppingListID _ id w) as [[?|?] ?].
  - unfold ItemHandler.GetItem. simpl.
    destruct id as [id|err]; simpl; [|done]. unfold_M.
    destruct (reads_change_nothing id w) as (_ & _ & H & _).
    destruct (ItemService.GetItem _ id w) as [[?|?] ?]; [done|].
    by case_decide.
  - done.
Qed.

Lemma get_requests_read_only_witness :
  routes.method (routes.GET_lists_id (Ok 7)) = "GET"
  ∧ store (main.router (routes.GET_lists_id (Ok 7)) examples.w_down).2
    = store examples.w_down.
Proof.
  split; [done|].
  apply (get_requests_read_only (routes.GET_lists_id (Ok 7)) examples.w_down eq_refl).
Defined.

(** ** Handlers over any service *)

Ltac split_handler :=
  repeat (simpl;
    match goal with
    | |- context [match ?x with Ok _ => _ | Err _ => _ end] => is_var x; destruct x
    | |- context [match ?x with Some _ => _ | None => _ end] => is_var x; destruct x
    | |- context [decide ?P] => destruct (decide P)
    | |- context [let '(_, _) := ?c in _] =>
        tryif (match c with context [let '(_, _) := _ in _] => idtac end)
        then fail else destruct c
    end).

(** X9. Whatever services stand behind the handlers, each route answers
    only with the status codes its handler spells out: listing routes never
    answer 404, the list-of-lists route never answers 400, creation answers
    201 and deletion 204 on success, and the health route always 200. *)
Theorem route_status_codes (shoppingListHandler : ShoppingListHandler.t)
    (itemHandler : ItemHandler.t) (req : routes.Request) (w : World) :
  routes.reply_code (routes.SetupRoutes shoppingListHandler itemHandler req w).1
  ∈ match req with
    | routes.POST_lists _ => [201; 400; 500]
    | routes.GET_lists => [200; 500]
    | routes.GET_lists_id _ => [200; 400; 404; 500]
    | routes.PUT_lists_id _ _ => [200; 400; 404; 500]
    | routes.DELETE_lists_id _ => [204; 400; 404; 500]
    | routes.POST_shopping_lists_items _ _ => [201; 400; 404; 500]
    | routes.GET_shopping_lists_items _ => [200; 400; 500]
    | routes.GET_items_id _ => [200; 400; 404; 500]
    | routes.PUT_items_id _ _ => [200; 400; 404; 500]
    | routes.DELETE_items_id _ => [204; 400; 404; 500]
    | routes.PATCH_items_id_toggle _ => [200; 400; 404; 500]
    | routes.GET_health => [200]
    end.
Proof.
  unfold routes.SetupRoutes.
  destruct req; unfold fmap, M_fmap;
    unfold ShoppingListHandler.CreateShoppingList, ShoppingListHandler.GetAllShoppingLists,
      ShoppingListHandler.GetShoppingList, ShoppingListHandler.UpdateShoppingList,
      ShoppingListHandler.DeleteShoppingList, ItemHandler.CreateItem,
      ItemHandler.GetItemsByShoppingListID, ItemHandler.GetItem, ItemHandler.UpdateItem,
      ItemHandler.DeleteItem, ItemHandler.ToggleItemCompletion,
      ItemHandler.CreateItem_respond, ItemHandler.UpdateItem_respond;
    unfold_M; split_handler; codes; repeat constructor.
Qed.

Ltac unfold_handlers :=
  unfold routes.SetupRoutes, fmap, M_fmap,
    ShoppingListHandler.CreateShoppingList, ShoppingListHandler.GetAllShoppingLists,
    ShoppingListHandler.GetShoppingList, ShoppingListHandler.UpdateShoppingList,
    ShoppingListHandler.DeleteShoppingList, ItemHandler.CreateItem,
    ItemHandler.GetItemsByShoppingListID, ItemHandler.GetItem, ItemHandler.UpdateItem,
    ItemHandler.DeleteItem, ItemHandler.ToggleItemCompletion,
    ItemHandler.CreateItem_respond, ItemHandler.UpdateItem_respond.

(** X10. A request whose path id does not parse or whose body does not
    bind is answered 400 in the world it arrived in, whatever services stand
    behind the handlers: no service method runs. *)
Theorem undecoded_request_rejected (shoppingListHandler : ShoppingListHandler.t)
    (itemHandler : ItemHandler.t) (req : routes.Request) (w : World)
    (Hbad : routes.decoded req = false) :
  ∃ msg,
    routes.SetupRoutes shoppingListHandler itemHandler req w
    = (routes.Handled (JSON StatusBadRequest (H_error msg)), w).
Proof.
  destruct req as [[?|?]| |[?|?]|[?|?] [?|?]|[?|?]|[?|?] [?|?]|[?|?]|[?|?]|[?|?] [?|?]
                  |[?|?]|[?|?]|];
    try discriminate Hbad; unfold_handlers; simpl; by eexists.
Qed.

Lemma undecoded_request_rejected_witness :
  routes.decoded (routes.PUT_items_id (Ok 21) (Err (ErrForeign "EOF"))) = false
  ∧ ∃ msg,
      main.router (routes.PUT_items_id (Ok 21) (Err (ErrForeign "EOF"))) examples.w0
      = (routes.Handled (JSON StatusBadRequest (H_error msg)), examples.w0).
Proof.
  split; [done|].
  apply (undecoded_request_rejected server.shoppingListHandler server.itemHandler
           (routes.PUT_items_id (Ok 21) (Err (ErrForeign "EOF"))) examples.w0 eq_refl).
Defined.

(** X11. Whatever services stand behind the handlers and whatever error
    they report, the body of a 500 answer is the fixed sentence of its
    route: the text of the underlying error never reaches the client. *)
Theorem internal_failure_body_is_fixed (shoppingListHandler : ShoppingListHandler.t)
    (itemHandler : ItemHandler.t) (req : routes.Request) (w : World) (r : Response)
    (Hreply : (routes.SetupRoutes shoppingListHandler itemHandler req w).1
              = routes.Handled r)
    (Hcode : Code r = StatusInternalServerError) :
  Body r
  = H_error
      match req with
      | routes.POST_lists _ => "Failed to create shopping list"
      | routes.GET_lists => "Failed to retrieve shopping lists"
      | routes.GET_lists_id _ => "Failed to retrieve shopping list"
      | routes.PUT_lists_id _ _ => "Failed to update shopping list"
      | routes.DELETE_lists_id _ => "Failed to delete shopping list"
      | routes.POST_shopping_lists_items _ _ => "Failed to create item"
      | routes.GET_shopping_lists_items _ => "Failed to retrieve items"
      | routes.GET_items_id _ => "Failed to retrieve item"
      | routes.PUT_items_id _ _ => "Failed to update item"
      | routes.DELETE_items_id _ => "Failed to delete item"
      | routes.PATCH_items_id_toggle _ => "Failed to toggle item completion"
      | routes.GET_health => EmptyString
      end.
Proof.
  revert Hreply. destruct req; unfold_handlers; unfold_M; split_handler;
    intros [= <-]; simpl in *; done.
Qed.

Lemma internal_failure_body_is_fixed_witness :
  (main.router (routes.GET_lists_id (Ok 7)) examples.w_down).1
  = routes.Handled (JSON 500 (H_error "Failed to retrieve shopping list"))
  ∧ Code (JSON 500 (H_error "Failed to retrieve shopping list"))
    = StatusInternalServerError
  ∧ Body (JSON 500 (H_error "Failed to retrieve shopping list"))
    = H_error "Failed to retrieve shopping list".
Proof.
  assert (Hreply : (main.router (routes.GET_lists_id (Ok 7)) examples.w_down).1
                   = routes.Handled (JSON 500 (H_error "Failed to retrieve shopping list")))
    by by vm_compute.
  split; [done|]. split; [done|].
  apply (internal_failure_body_is_fixed server.shoppingListHandler server.itemHandler
           (routes.GET_lists_id (Ok 7)) examples.w_down _ Hreply eq_refl).
Defined.

(** ** Deleting, over gorm *)

Lemma count_zero_iff {A} (f : A → UUID) (id : UUID) (rows : list A) :
  length (filter (λ r, f r = id) rows) = 0%nat ↔ id ∉ f <$> rows.
Proof.
  rewrite length_zero_iff_nil. split.
  - intros Hnil (r & -> & Hr)%list_elem_of_fmap.
    assert (Hin : r ∈ filter (λ r', f r' = f r) rows) by by apply list_elem_of_filter.
    rewrite Hnil in Hin. by apply elem_of_nil in Hin.
  - intros Hnot. destruct (filter _ rows) as [|r l] eqn:Hf; [done|].
    assert (Hin : r ∈ filter (λ r, f r = id) rows) by (rewrite Hf; apply list_elem_of_here).
    apply list_elem_of_filter in Hin as [<- Hin]. destruct Hnot.
    by apply list_elem_of_fmap_2.
Qed.

Lemma find_in_filter_other {A} (f : A → UUID) (id : UUID) (rows : list A) :
  list_find (λ r, f r = id) (filter (λ r, f r ≠ id) rows) = None.
Proof.
  apply list_find_None, list.Forall_forall.
  by intros r [? _]%list_elem_of_filter.
Qed.

Lemma filter_nil_of_none {A} (P : A → Prop) `{∀ x, Decision (P x)} (l : list A) :
  (∀ x, x ∈ l → ¬ P x) → filter P l = [].
Proof.
  induction l as [|a l IH]; [done|]. intros Hnone. rewrite filter_cons.
  rewrite decide_False by (apply Hnone, list_elem_of_here).
  apply IH. intros x Hx. apply Hnone. by apply list_elem_of_further.
Qed.

Lemma item_Delete_run n id w :
  healthy (S n) w →
  ∃ w1, PostgresItemRepository.Delete id w
        = (if decide (id ∈ gorm.item_ids (store w)) then None else Some ErrItemNotFound, w1)
        ∧ items (store w1) = filter (λ r, Item.ID r ≠ id) (items (store w))
        ∧ shopping_lists (store w1) = shopping_lists (store w)
        ∧ healthy n w1.
Proof.
  intros (w1 & Hrt & Hs & Hr & Hc & Hh)%round_trip_healthy.
  unfold PostgresItemRepository.Delete, gorm.Delete_Item. unfold_M.
  rewrite Hrt. simpl. rewrite Hs.
  pose proof (count_zero_iff Item.ID id (items (store w))) as Hcount.
  exists (set_store (mkStore (shopping_lists (store w))
                       (filter (λ r, Item.ID r ≠ id) (items (store w)))) w1).
  split; [|by split_and!].
  case_decide as Hn; case_decide as Hin; try done.
  - exfalso. apply Hcount; [lia|done].
  - exfalso. apply Hn. apply (Nat2Z.inj_iff _ 0). by apply Hcount.
Qed.

(** X12. On the gorm-backed service, while the connection holds:
    [DeleteItem] of an id no item has answers [ErrItemNotFound] and changes
    nothing; of a stored id it answers nil.  Either way the items left are
    exactly those with another id, the lists are untouched, and [GetItem] of
    the id then answers [ErrItemNotFound]. *)
Theorem DeleteItem_then_GetItem (id : UUID) (w : World) (Hdb : healthy 2 w) :
  let out := ItemService.DeleteItem server.itemService id w in
  (id ∉ gorm.item_ids (store w) →
   out.1 = Some ErrItemNotFound ∧ store out.2 = store w)
  ∧ (id ∈ gorm.item_ids (store w) → out.1 = None)
  ∧ items (store out.2) = filter (λ r, Item.ID r ≠ id) (items (store w))
  ∧ shopping_lists (store out.2) = shopping_lists (store w)
  ∧ (ItemService.GetItem server.itemService id out.2).1 = Err ErrItemNotFound.
Proof.
  destruct (item_Delete_run 1 id w Hdb) as (w1 & Hrun & Hitems & Hlists & Hh).
  unfold ItemService.DeleteItem, ItemService.GetItem. simpl. rewrite Hrun. simpl.
  split_and!; try done.
  - intros Hnot. rewrite decide_False by done. split; [done|].
    destruct (item_Delete_spec id w) as (Herr & _). rewrite Hrun in Herr.
    rewrite decide_False in Herr by done. by apply Herr.
  - intros Hin. by rewrite decide_True.
  - destruct (item_GetByID_run 0 id w1 Hh) as (w2 & Hget & _).
    rewrite Hget, Hitems. simpl. by rewrite (find_in_filter_other Item.ID).
Qed.

Lemma DeleteItem_then_GetItem_witness :
  healthy 2 examples.w0
  ∧ (ItemService.DeleteItem server.itemService 22 examples.w0).1 = None
  ∧ items (store (ItemService.DeleteItem server.itemService 22 examples.w0).2)
    = [examples.milk; examples.bread].
Proof.
  assert (Hdb : healthy 2 examples.w0) by constructor.
  split; [done|].
  destruct (DeleteItem_then_GetItem 22 examples.w0 Hdb) as (_ & Hin & Hitems & _).
  split; [|by rewrite Hitems].
  apply Hin. apply (bool_decide_unpack _). by vm_compute.
Defined.

Lemma list_Delete_run n id w :
  healthy (S n) w →
  ∃ w1, PostgresShoppingListRepository.Delete id w
        = (if decide (id ∈ gorm.list_ids (store w)) then None
           else Some ErrShoppingListNotFound, w1)
        ∧ shopping_lists (store w1)
          = filter (λ r, ShoppingList.ID r ≠ id) (shopping_lists (store w))
        ∧ items (store w1)
          = (if decide (id ∈ gorm.list_ids (store w))
             then filter (λ r, Item.ShoppingListID r ≠ id) (items (store w))
             else items (store w))
        ∧ healthy n w1.
Proof.
  intros (w1 & Hrt & Hs & Hr & Hc & Hh)%round_trip_healthy.
  unfold PostgresShoppingListRepository.Delete, gorm.Delete_ShoppingList. unfold_M.
  rewrite Hrt. simpl. rewrite Hs.
  pose proof (count_zero_iff ShoppingList.ID id (shopping_lists (store w))) as Hcount.
  exists (set_store
            (mkStore (filter (λ r, ShoppingList.ID r ≠ id) (shopping_lists (store w)))
               (if decide (length (filter (λ r, ShoppingList.ID r = id)
                                     (shopping_lists (store w))) = 0%nat)
                then items (store w)
                else filter (λ r, Item.ShoppingListID r ≠ id) (items (store w)))) w1).
  assert (Hlen : if decide (id ∈ gorm.list_ids (store w))
                 then length (filter (λ r, ShoppingList.ID r = id)
                                (shopping_lists (store w))) ≠ 0%nat
                 else length (filter (λ r, ShoppingList.ID r = id)
                                (shopping_lists (store w))) = 0%nat).
  { case_decide as Hin; [|by apply Hcount]. intros H0. by apply Hcount in H0. }
  destruct (decide (id ∈ gorm.list_ids (store w))) as [Hin|Hin]; simpl;
    repeat case_decide; split_and!; first [done | lia].
Qed.



(** ** Reading back what was written, over gorm *)

Lemma healthy_pred n w : healthy (S n) w → healthy n w.
Proof.
  unfold healthy. intros H. apply Forall_lookup. intros i f Hi.
  rewrite list.Forall_lookup in H. apply (H i).
  apply lookup_take_Some in Hi as [Hi Hlt]. apply lookup_take_Some. split; [done|lia].
Qed.

Lemma GetShoppingList_run n id w :
  healthy (S (S n)) w →
  ∃ w',
    ShoppingListService.GetShoppingList server.shoppingListService id w
    = (match list_find (λ r, ShoppingList.ID r = id) (shopping_lists (store w)) with
       | Some (_, row) =>
           Ok (ShoppingList.set_Items
                 (filter (λ item, Item.ShoppingListID item = id) (items (store w))) row)
       | None => Err ErrShoppingListNotFound
       end, w')
    ∧ store w' = store w ∧ rand w' = rand w.
Proof.
  intros Hdb.
  destruct (list_GetByID_run (S n) id w Hdb) as (w1 & Hget & Hs1 & Hr1 & _ & Hh1).
  unfold ShoppingListService.GetShoppingList. unfold_M. simpl. rewrite Hget.
  destruct (list_find _ _) as [[i row]|]; [|by eexists].
  destruct (item_GetByShoppingListID_run n id w1 Hh1) as (w2 & Hitems & Hs2 & Hr2 & _).
  rewrite Hitems, to_values_id, Hs1. simpl. eexists. split; [done|]. split; congruence.
Qed.

Lemma list_Update_run n l w :
  healthy (S n) w →
  ShoppingList.ID l ≠ uuid.Nil →
  ShoppingList.ID l ∈ gorm.list_ids (store w) →
  ∃ w1, PostgresShoppingListRepository.Update l w
        = ((ShoppingList.set_UpdatedAt (clock w + 1) l, None), w1)
        ∧ shopping_lists (store w1)
          = gorm.update_lists (ShoppingList.ID l)
              (gorm.list_row (ShoppingList.set_UpdatedAt (clock w + 1) l))
              (shopping_lists (store w))
        ∧ items (store w1) = items (store w)
        ∧ rand w1 = rand w ∧ clock w1 = clock w + 1 ∧ healthy n w1.
Proof.
  intros (w1 & Hrt & Hs & Hr & Hc & Hh)%round_trip_healthy Hnil Hin.
  unfold PostgresShoppingListRepository.Update, gorm.Save_ShoppingList. unfold_M.
  rewrite Hrt. case_decide as Hzero; [done|]. rewrite Hs.
  case_decide as Hhit; [|done].
  rewrite Hc. eexists. split; [done|]. simpl.
  split_and!; try done.
Qed.

Lemma list_find_update_lists id new rows i old :
  ShoppingList.ID new = id →
  list_find (λ r, ShoppingList.ID r = id) rows = Some (i, old) →
  list_find (λ r, ShoppingList.ID r = id) (gorm.update_lists id new rows) = Some (i, new).
Proof.
  intros Hnew. revert i. unfold gorm.update_lists.
  induction rows as [|r rows IH]; intros i; csimpl; [done|].
  case_decide as Hr.
  - intros [= <- <-]. by rewrite decide_True.
  - rewrite (decide_False (P := ShoppingList.ID r = id)) by done.
    destruct (list_find _ rows) as [[j y]|] eqn:Hfind; simpl; [|done].
    intros [= <- <-]. by rewrite (IH j eq_refl).
Qed.

Lemma list_find_list_ids id rows i row :
  list_find (λ r, ShoppingList.ID r = id) rows = Some (i, row) →
  ShoppingList.ID row = id ∧ id ∈ ShoppingList.ID <$> rows.
Proof.
  intros (Hi & Hid & _)%list_find_Some. split; [done|].
  apply list_elem_of_fmap. exists row. split; [done|]. by eapply list_elem_of_lookup_2.
Qed.

(** X14. On the gorm-backed service, for a stored list with a non-zero
    key, a non-empty name and a connection that holds: [UpdateShoppingList]
    answers the stored row with name and description overwritten, the same
    id and creation time, and [Items] as the row has it (the items are not
    loaded); the row is rewritten in place and no item is touched.  A
    [GetShoppingList] right after answers the new name and description
    together with the items of the list. *)
Theorem UpdateShoppingList_overwrites (id : UUID) (name description : string)
    (w : World) (i : nat) (row : ShoppingList.t)
    (Hname : name ≠ EmptyString)
    (Hdb : healthy 4 w)
    (Hkey : id ≠ uuid.Nil)
    (Hstored : list_find (λ r, ShoppingList.ID r = id) (shopping_lists (store w))
               = Some (i, row)) :
  ∃ w',
    ShoppingListService.UpdateShoppingList server.shoppingListService
      id name description w
    = (Ok (ShoppingList.mk id name description (ShoppingList.CreatedAt row)
             (clock w + 2) (ShoppingList.Items row)), w')
    ∧ list_find (λ r, ShoppingList.ID r = id) (shopping_lists (store w'))
      = Some (i, ShoppingList.mk id name description (ShoppingList.CreatedAt row)
                   (clock w + 2) [])
    ∧ items (store w') = items (store w)
    ∧ (ShoppingListService.GetShoppingList server.shoppingListService id w').1
      = Ok (ShoppingList.mk id name description (ShoppingList.CreatedAt row)
              (clock w + 2)
              (filter (λ item, Item.ShoppingListID item = id) (items (store w)))).
Proof.
  destruct (list_GetByID_run 3 id w Hdb) as (w1 & Hget & Hs1 & _ & Hc1 & Hh1).
  rewrite Hstored in Hget.
  destruct (list_find_list_ids _ _ _ _ Hstored) as [Hid Hin].
  set (new := ShoppingList.set_Description description (ShoppingList.set_Name name row)).
  destruct (list_Update_run 2 new w1 Hh1)
    as (w2 & Hupd & Hlists & Hitems & _ & Hc2 & Hh2).
  { simpl. by rewrite Hid. }
  { simpl. unfold gorm.list_ids. by rewrite Hs1, Hid. }
  rewrite Hc1 in *. replace (clock w + 1 + 1) with (clock w + 2) in * by lia.
  assert (Hrow' : list_find (λ r, ShoppingList.ID r = id) (shopping_lists (store w2))
                  = Some (i, ShoppingList.mk id name description
                               (ShoppingList.CreatedAt row) (clock w + 2) [])).
  { rewrite Hlists, Hs1. change (ShoppingList.ID new) with (ShoppingList.ID row).
    change (gorm.list_row (ShoppingList.set_UpdatedAt (clock w + 2) new))
      with (ShoppingList.mk (ShoppingList.ID row) name description
              (ShoppingList.CreatedAt row) (clock w + 2) []).
    rewrite Hid. apply (list_find_update_lists id _ _ i row); [done|done]. }
  exists w2. split_and!.
  - unfold ShoppingListService.UpdateShoppingList. case_decide; [done|]. unfold_M. simpl.
    rewrite Hget. fold new. rewrite Hupd. simpl. unfold ShoppingList.set_UpdatedAt. simpl.
    by rewrite Hid.
  - done.
  - by rewrite Hitems, Hs1.
  - destruct (GetShoppingList_run 0 id w2 Hh2) as (w3 & Hrun & _).
    rewrite Hrun, Hrow'. simpl. by rewrite Hitems, Hs1.
Qed.

Lemma UpdateShoppingList_overwrites_witness :
  "Food" ≠ EmptyString
  ∧ healthy 4 examples.w0
  ∧ 7 ≠ uuid.Nil
  ∧ ∃ w', ShoppingListService.UpdateShoppingList server.shoppingListService
            7 "Food" "daily" examples.w0
          = (Ok (ShoppingList.mk 7 "Food" "daily" 10 102 []), w').
Proof.
  assert (Hname : "Food" ≠ EmptyString) by done.
  assert (Hdb : healthy 4 examples.w0) by constructor.
  assert (Hkey : 7 ≠ uuid.Nil) by done.
  split; [done|]. split; [done|]. split; [done|].
  destruct (UpdateShoppingList_overwrites 7 "Food" "daily" examples.w0 0 examples.groceries
              Hname Hdb Hkey eq_refl) as (w' & Hrun & _).
  by exists w'.
Defined.

Lemma find_appended {A} (f : A → UUID) (rows : list A) (new : A) :
  f new ∉ f <$> rows →
  list_find (λ r, f r = f new) (rows ++ [new]) = Some (length rows, new).
Proof.
  intros Hnew. apply list_find_Some. split_and!.
  - by rewrite lookup_app_r, Nat.sub_diag by lia.
  - done.
  - intros j y Hj Hlt Hy. rewrite lookup_app_l in Hj by done.
    apply Hnew. rewrite <- Hy. apply list_elem_of_fmap_2. by eapply list_elem_of_lookup_2.
Qed.

Lemma item_Create_run n item w :
  healthy (S n) w →
  Item.ID item ∉ gorm.item_ids (store w) →
  Item.Quantity item ≠ 0 →
  Item.CreatedAt item = 0 → Item.UpdatedAt item = 0 →
  ∃ w1, PostgresItemRepository.Create item w
        = ((Item.set_UpdatedAt (clock w + 1) (Item.set_CreatedAt (clock w + 1) item),
            None), w1)
        ∧ items (store w1)
          = items (store w)
            ++ [Item.set_UpdatedAt (clock w + 1) (Item.set_CreatedAt (clock w + 1) item)]
        ∧ shopping_lists (store w1) = shopping_lists (store w)
        ∧ healthy n w1.
Proof.
  intros (w1 & Hrt & Hs & Hr & Hc & Hh)%round_trip_healthy Hnew Hq Hca Hua.
  unfold PostgresItemRepository.Create, gorm.Create_Item. unfold_M.
  rewrite Hrt. simpl. unfold gorm.insert_Item. rewrite Hs.
  rewrite decide_False by done. rewrite (decide_False (P := Item.Quantity item = 0)) by done.
  unfold gorm.fill. simpl. rewrite Hca, Hua, Hc. simpl.
  destruct item as [iid lid nm q c ca ua]. simpl in *.
  eexists. split; [reflexivity|]. by split_and!.
Qed.

(** X15. On the gorm-backed service, for a stored list, a non-empty name,
    a non-zero quantity, a connection that holds and a drawn id no item
    carries: [CreateItem] answers an item with that id, attached to the list,
    with the name and quantity given (a negative quantity goes through as it
    is) and not completed; exactly that item is appended to the items and no
    list is touched.  [GetItem] of its id then answers it, and the item
    listing of the list answers the items it had followed by the new one. *)
Theorem CreateItem_attaches (listID : UUID) (name : string) (quantity : Z) (w : World)
    (Hname : name ≠ EmptyString)
    (Hquantity : quantity ≠ 0)
    (Hdb : healthy 3 w)
    (Hlist : listID ∈ gorm.list_ids (store w))
    (Hfree : uuid.of_random (source (rand w) (drawn (rand w)))
             ∉ gorm.item_ids (store w)) :
  let item := Item.mk (uuid.of_random (source (rand w) (drawn (rand w)))) listID
                name quantity false (clock w + 2) (clock w + 2) in
  ∃ w',
    ItemService.CreateItem server.itemService listID name quantity w = (Ok item, w')
    ∧ items (store w') = items (store w) ++ [item]
    ∧ shopping_lists (store w') = shopping_lists (store w)
    ∧ (ItemService.GetItem server.itemService (Item.ID item) w').1 = Ok item
    ∧ (ItemService.GetItemsByShoppingListID server.itemService listID w').1
      = Ok (filter (λ r, Item.ShoppingListID r = listID) (items (store w)) ++ [item]).
Proof.
  simpl.
  set (id := uuid.of_random (source (rand w) (drawn (rand w)))) in *.
  destruct (list_GetByID_run 2 listID w Hdb) as (w1 & Hget & Hs1 & Hr1 & Hc1 & Hh1).
  assert (Hfound : ∃ i row, list_find (λ r, ShoppingList.ID r = listID)
                              (shopping_lists (store w)) = Some (i, row)).
  { destruct (list_find _ _) as [[i row]|] eqn:Hfind; [by eauto|].
    apply list_find_None in Hfind. unfold gorm.list_ids in Hlist.
    apply list_elem_of_fmap in Hlist as (row & -> & Hrow).
    rewrite list.Forall_forall in Hfind. by destruct (Hfind row Hrow). }
  destruct Hfound as (i & row & Hfind). rewrite Hfind in Hget.
  set (w1' := set_rand (mkEntropy (source (rand w1)) (S (drawn (rand w1)))) w1).
  assert (Hh1' : healthy 2 w1') by done.
  destruct (item_Create_run 1 (Item.mk id listID name quantity false 0 0) w1' Hh1')
    as (w2 & Hcreate & Hitems & Hlists & Hh2);
    [simpl; by rewrite Hs1|done|done|done|].
  simpl in Hcreate, Hitems. rewrite Hc1 in Hcreate, Hitems.
  replace (clock w + 1 + 1) with (clock w + 2) in * by lia.
  unfold Item.set_UpdatedAt, Item.set_CreatedAt in Hcreate, Hitems. simpl in *.
  exists w2. split_and!.
  - unfold ItemService.CreateItem. case_decide; [done|]. unfold_M. simpl.
    rewrite Hget. unfold with_rand. simpl. rewrite Hr1. fold id.
    unfold Item.set_ShoppingListID. simpl.
    replace (set_rand {| source := source (rand w); drawn := S (drawn (rand w)) |} w1)
      with w1' by (unfold w1'; by rewrite Hr1).
    by rewrite Hcreate.
  - by rewrite Hitems, Hs1.
  - by rewrite Hlists, Hs1.
  - destruct (item_GetByID_run 0 id w2 Hh2) as (w3 & Hrun & _).
    unfold ItemService.GetItem. simpl. rewrite Hrun, Hitems. simpl. rewrite Hs1.
    pose proof (find_appended Item.ID (items (store w))
                  (Item.mk id listID name quantity false (clock w + 2) (clock w + 2))
                  Hfree) as Hlast.
    simpl in Hlast. by rewrite Hlast.
  - destruct (item_GetByShoppingListID_run 0 listID w2 Hh2) as (w3 & Hrun & _).
    unfold ItemService.GetItemsByShoppingListID. simpl. rewrite Hrun, Hitems. simpl.
    rewrite Hs1, list.filter_app. do 2 f_equal. rewrite filter_cons. simpl.
    by rewrite decide_True.
Qed.

Lemma CreateItem_attaches_witness :
  "Eggs" ≠ EmptyString ∧ -3 ≠ 0 ∧ healthy 3 examples.w0
  ∧ ∃ w', ItemService.CreateItem server.itemService 8 "Eggs" (-3) examples.w0
          = (Ok (Item.mk (uuid.of_random (Z.shiftl 1 120)) 8 "Eggs" (-3) false 102 102), w').
Proof.
  assert (Hname : "Eggs" ≠ EmptyString) by done.
  assert (Hq : -3 ≠ 0) by done.
  assert (Hdb : healthy 3 examples.w0) by constructor.
  assert (Hlist : 8 ∈ gorm.list_ids (store examples.w0)).
  { apply (bool_decide_unpack _). by vm_compute. }
  assert (Hfree : uuid.of_random (source (rand examples.w0) (drawn (rand examples.w0)))
                  ∉ gorm.item_ids (store examples.w0)).
  { apply (bool_decide_unpack _). by vm_compute. }
  split; [done|]. split; [done|]. split; [done|].
  destruct (CreateItem_attaches 8 "Eggs" (-3) examples.w0 Hname Hq Hdb Hlist Hfree)
    as (w' & Hrun & _).
  by exists w'.
Defined.

Lemma CreateShoppingList_run n name description w :
  name ≠ EmptyString →
  healthy (S n) w →
  uuid.of_random (source (rand w) (drawn (rand w))) ∉ gorm.list_ids (store w) →
  let sl := ShoppingList.mk (uuid.of_random (source (rand w) (drawn (rand w))))
              name description (clock w + 1) (clock w + 1) [] in
  ∃ w',
    ShoppingListService.CreateShoppingList server.shoppingListService name description w
    = (Ok sl, w')
    ∧ shopping_lists (store w') = shopping_lists (store w) ++ [sl]
    ∧ items (store w') = items (store w)
    ∧ healthy n w'.
Proof.
  intros Hname Hdb Hfree. simpl.
  set (id := uuid.of_random (source (rand w) (drawn (rand w)))) in *.
  set (w0 := set_rand (mkEntropy (source (rand w)) (S (drawn (rand w)))) w).
  assert (Hdb0 : healthy (S n) w0) by done.
  destruct (round_trip_healthy n w0 Hdb0) as (w1 & Hrt & Hs & Hr & Hc & Hh).
  exists (set_store (mkStore (shopping_lists (store w)
                                ++ [ShoppingList.mk id name description
                                      (clock w + 1) (clock w + 1) []])
                       (items (store w))) w1).
  split; [|by split_and!].
  unfold ShoppingListService.CreateShoppingList. case_decide; [done|].
  unfold_M. unfold with_rand. simpl. fold id. fold w0.
  unfold PostgresShoppingListRepository.Create, gorm.Create_ShoppingList. unfold_M.
  rewrite Hrt. simpl. unfold gorm.insert_ShoppingList. rewrite Hs.
  case_decide as Hin; [done|].
  simpl. unfold gorm.fill, gorm.list_row. simpl. by rewrite Hc.
Qed.

(** X16. On the gorm-backed service, from tables in which every item is
    attached to a stored list: a list that [CreateShoppingList] has just
    answered is answered unchanged, with its empty [Items], by
    [GetShoppingList] of its id. *)
Theorem CreateShoppingList_then_Get (name description : string) (w : World)
    (Hname : name ≠ EmptyString)
    (Hdb : healthy 3 w)
    (Hfree : uuid.of_random (source (rand w) (drawn (rand w))) ∉ gorm.list_ids (store w))
    (Hattached : items_attached (store w)) :
  ∃ sl w',
    ShoppingListService.CreateShoppingList server.shoppingListService name description w
    = (Ok sl, w')
    ∧ (ShoppingListService.GetShoppingList server.shoppingListService
         (ShoppingList.ID sl) w').1 = Ok sl.
Proof.
  destruct (CreateShoppingList_run 2 name description w Hname Hdb Hfree)
    as (w' & Hrun & Hlists & Hitems & Hh).
  eexists _, w'. split; [exact Hrun|].
  destruct (GetShoppingList_run 0 (uuid.of_random (source (rand w) (drawn (rand w)))) w' Hh)
    as (w2 & Hget & _).
  simpl. rewrite Hget, Hlists, Hitems.
  pose proof (find_appended ShoppingList.ID (shopping_lists (store w))
                (ShoppingList.mk (uuid.of_random (source (rand w) (drawn (rand w))))
                   name description (clock w + 1) (clock w + 1) []) Hfree) as Hlast.
  simpl in Hlast. rewrite Hlast. simpl. unfold ShoppingList.set_Items. simpl.
  do 2 f_equal. apply filter_nil_of_none.
  intros item Hitem Hid. apply Hfree. rewrite <- Hid. by apply Hattached.
Qed.

Lemma CreateShoppingList_then_Get_witness :
  "Camping" ≠ EmptyString
  ∧ healthy 3 examples.w0
  ∧ items_attached (store examples.w0)
  ∧ ∃ sl w',
      ShoppingListService.CreateShoppingList server.shoppingListService
        "Camping" "tent" examples.w0 = (Ok sl, w')
      ∧ (ShoppingListService.GetShoppingList server.shoppingListService
           (ShoppingList.ID sl) w').1 = Ok sl.
Proof.
  assert (Hname : "Camping" ≠ EmptyString) by done.
  assert (Hdb : healthy 3 examples.w0) by constructor.
  assert (Hfree : uuid.of_random (source (rand examples.w0) (drawn (rand examples.w0)))
                  ∉ gorm.list_ids (store examples.w0)).
  { apply (bool_decide_unpack _). by vm_compute. }
  pose proof (proj2 sample_consistent) as Hatt.
  split; [done|]. split; [done|]. split; [done|].
  apply (CreateShoppingList_then_Get "Camping" "tent" examples.w0 Hname Hdb Hfree Hatt).
Defined.

(** ** All lists at once *)




Lemma item_listing_eq id w :
  PostgresItemRepository.GetByShoppingListID id w
  = (match head (faults w) with
     | Some (Some msg) => Err (ErrForeign msg)
     | _ => Ok (filter (λ r, Item.ShoppingListID r = id) (items (store w)))
     end,
     mkWorld (store w) (tail (faults w)) (clock w + 1) (rand w)).
Proof.
  unfold PostgresItemRepository.GetByShoppingListID, gorm.Find_Items_by_list.
  unfold_M. rewrite round_trip_eq. by destruct (head (faults w)) as [[msg|]|].
Qed.

Lemma load_each_fails lists : ∀ k w msg rest,
  faults w = replicate k None ++ Some msg :: rest →
  (k < length lists)%nat →
  (ShoppingListService.load_each server.shoppingListService lists w).1
  = Err (ErrForeign msg).
Proof.
  induction lists as [|row lists IH]; intros k w msg rest Hf Hk; simpl in Hk; [lia|].
  simpl. unfold_M. rewrite item_listing_eq, Hf.
  destruct k as [|k]; simpl; [done|].
  rewrite (surjective_pairing (ShoppingListService.load_each _ _ _)).
  rewrite (IH k _ msg rest); [done|done|lia].
Qed.

(** X18. [GetAllShoppingLists] answers all lists or none: when the
    connection drops on the first statement or on the item query of any
    list, the answer is the driver's error, and the lists already assembled
    are dropped. *)
Theorem GetAllShoppingLists_all_or_nothing (w : World) (k : nat) (msg : string)
    (rest : list (option string))
    (Hfaults : faults w = replicate k None ++ Some msg :: rest)
    (Hk : (k ≤ length (shopping_lists (store w)))%nat) :
  (ShoppingListService.GetAllShoppingLists server.shoppingListService w).1
  = Err (ErrForeign msg).
Proof.
  unfold ShoppingListService.GetAllShoppingLists. unfold_M. simpl.
  unfold PostgresShoppingListRepository.GetAll, gorm.Find_ShoppingLists. unfold_M.
  rewrite round_trip_eq, Hfaults.
  destruct k as [|k]; simpl; [done|].
  apply (load_each_fails _ k _ msg rest); [done|lia].
Qed.

Lemma GetAllShoppingLists_all_or_nothing_witness :
  faults (set_faults [None; None; Some "timeout"] examples.w0)
  = replicate 2 None ++ Some "timeout" :: []
  ∧ (2 ≤ length (shopping_lists (store (set_faults [None; None; Some "timeout"]
                                          examples.w0))))%nat
  ∧ (ShoppingListService.GetAllShoppingLists server.shoppingListService
       (set_faults [None; None; Some "timeout"] examples.w0)).1
    = Err (ErrForeign "timeout").
Proof.
  split; [done|]. split; [done|].
  apply (GetAllShoppingLists_all_or_nothing
           (set_faults [None; None; Some "timeout"] examples.w0) 2 "timeout" []
           eq_refl).
  done.
Defined.

(** X19. The item listing of a list never looks the list up: while the
    connection holds it answers the stored items attached to the id and the
    handler answers 200 with them; for an id that no list has, in tables
    where every item is attached to a stored list, that is 200 with an empty
    array, not 404. *)
Theorem item_listing_without_lookup (listID : UUID) (w : World) (Hdb : healthy 1 w) :
  let rows := filter (λ r, Item.ShoppingListID r = listID) (items (store w)) in
  (ItemService.GetItemsByShoppingListID server.itemService listID w).1 = Ok rows
  ∧ (ItemHandler.GetItemsByShoppingListID server.itemHandler
       (mkContext (Ok listID) (Ok ())) w).1 = JSON StatusOK (JSON_Items rows)
  ∧ (items_attached (store w) → listID ∉ gorm.list_ids (store w) → rows = []).
Proof.
  simpl. unfold ItemHandler.GetItemsByShoppingListID, ItemService.GetItemsByShoppingListID.
  simpl. unfold_M.
  destruct (item_GetByShoppingListID_run 0 listID w Hdb) as (w1 & Hrun & _).
  change (ItemService.GetItemsByShoppingListID server.itemService listID w)
    with (PostgresItemRepository.GetByShoppingListID listID w).
  rewrite Hrun. simpl. split_and!; [done|done|].
  intros Hatt Hmissing. apply filter_nil_of_none.
  intros item Hitem Hid. apply Hmissing. rewrite <- Hid. by apply Hatt.
Qed.

Lemma item_listing_without_lookup_witness :
  healthy 1 examples.w0
  ∧ (ItemHandler.GetItemsByShoppingListID server.itemHandler
       (mkContext (Ok 9) (Ok ())) examples.w0).1 = JSON StatusOK (JSON_Items []).
Proof.
  assert (Hdb : healthy 1 examples.w0) by constructor.
  split; [done|].
  pose proof (item_listing_without_lookup 9 examples.w0 Hdb) as H. cbv zeta in H.
  destruct H as (_ & H & _). exact H.
Defined.

(** ** Lookups in the repositories *)

(** X20. Both [GetByID]s change no table and answer by cases: when the
    connection drops, the driver's error as it is (never a not-found error);
    otherwise the first stored row with the id, or the entity's own
    not-found error when no row has it. *)
Theorem GetByID_translates_not_found (id : UUID) (w : World) :
  let list_out := PostgresShoppingListRepository.GetByID id w in
  let item_out := PostgresItemRepository.GetByID id w in
  store list_out.2 = store w
  ∧ store item_out.2 = store w
  ∧ list_out.1
    = match head (faults w) with
      | Some (Some msg) => Err (ErrForeign msg)
      | _ => match list_find (λ r, ShoppingList.ID r = id) (shopping_lists (store w)) with
             | Some (_, row) => Ok row
             | None => Err ErrShoppingListNotFound
             end
      end
  ∧ item_out.1
    = match head (faults w) with
      | Some (Some msg) => Err (ErrForeign msg)
      | _ => match list_find (λ r, Item.ID r = id) (items (store w)) with
             | Some (_, row) => Ok row
             | None => Err ErrItemNotFound
             end
      end.
Proof.
  simpl. destruct (repo_reads_frame id w) as ((Hl & _) & _ & (Hi & _) & _).
  split_and!; [done | done | apply list_GetByID_cases | apply item_GetByID_cases].
Qed.

(** ** Ids that are not stored *)

Lemma find_missing {A} (f : A → UUID) (id : UUID) (rows : list A) :
  id ∉ f <$> rows → list_find (λ r, f r = id) rows = None.
Proof.
  intros Hmissing. apply list_find_None, list.Forall_forall.
  intros r Hr Hid. apply Hmissing. rewrite <- Hid. by apply list_elem_of_fmap_2.
Qed.

(** X21. On the gorm-backed handlers, while the connection holds, every
    item route given an id that no item has answers 404 "Item not found" and
    changes no table: reading, updating (with a bound name), deleting and
    toggling alike. *)
Theorem missing_item_is_404 (id : UUID) (req : ItemHandler.UpdateItemRequest.t) (w : World)
    (Hdb : healthy 1 w)
    (Hmissing : id ∉ gorm.item_ids (store w))
    (Hname : ItemHandler.UpdateItemRequest.Name req ≠ EmptyString) :
  let not_found := routes.Handled (JSON StatusNotFound (H_error "Item not found")) in
  (main.router (routes.GET_items_id (Ok id)) w).1 = not_found
  ∧ (main.router (routes.PUT_items_id (Ok id) (Ok req)) w).1 = not_found
  ∧ (main.router (routes.DELETE_items_id (Ok id)) w).1 = not_found
  ∧ (main.router (routes.PATCH_items_id_toggle (Ok id)) w).1 = not_found
  ∧ store (main.router (routes.GET_items_id (Ok id)) w).2 = store w
  ∧ store (main.router (routes.PUT_items_id (Ok id) (Ok req)) w).2 = store w
  ∧ store (main.router (routes.DELETE_items_id (Ok id)) w).2 = store w
  ∧ store (main.router (routes.PATCH_items_id_toggle (Ok id)) w).2 = store w.
Proof.
  assert (Hreplies :
    (main.router (routes.GET_items_id (Ok id)) w).1
    = routes.Handled (JSON StatusNotFound (H_error "Item not found"))
    ∧ (main.router (routes.PUT_items_id (Ok id) (Ok req)) w).1
      = routes.Handled (JSON StatusNotFound (H_error "Item not found"))
    ∧ (main.router (routes.DELETE_items_id (Ok id)) w).1
      = routes.Handled (JSON StatusNotFound (H_error "Item not found"))
    ∧ (main.router (routes.PATCH_items_id_toggle (Ok id)) w).1
      = routes.Handled (JSON StatusNotFound (H_error "Item not found"))).
  { destruct (item_GetByID_run 0 id w Hdb) as (w1 & Hget & _).
    rewrite (find_missing Item.ID id _ Hmissing) in Hget.
    destruct (item_Delete_run 0 id w Hdb) as (w2 & Hdel & _).
    rewrite decide_False in Hdel by done.
    unfold main.router. unfold_handlers. simpl. unfold_M.
    unfold ItemService.GetItem, ItemService.UpdateItem, ItemService.DeleteItem,
      ItemService.ToggleItemCompletion. simpl. unfold_M.
    rewrite Hget, Hdel. simpl.
    split_and!; try done.
    repeat case_decide; simpl; try done.
    all: by rewrite Hget. }
  destruct Hreplies as (H1 & H2 & H3 & H4). cbv zeta.
  split_and!; [exact H1 | exact H2 | exact H3 | exact H4 | ..].
  all: apply error_reply_changes_nothing_aux;
    first [rewrite H1 | rewrite H2 | rewrite H3 | rewrite H4]; by vm_compute.
Qed.

Lemma missing_item_is_404_witness :
  healthy 1 examples.w0
  ∧ (99 ∉ gorm.item_ids (store examples.w0))
  ∧ (main.router (routes.PATCH_items_id_toggle (Ok 99)) examples.w0).1
    = routes.Handled (JSON StatusNotFound (H_error "Item not found")).
Proof.
  assert (Hdb : healthy 1 examples.w0) by constructor.
  assert (Hmissing : 99 ∉ gorm.item_ids (store examples.w0)).
  { apply (bool_decide_unpack _). by vm_compute. }
  split; [done|]. split; [done|].
  pose proof (missing_item_is_404 99 (ItemHandler.UpdateItemRequest.mk "Tea" 1 false)
                examples.w0 Hdb Hmissing ltac:(done)) as H.
  cbv zeta in H. by destruct H as (_ & _ & _ & H & _).
Defined.

(** X22. On the gorm-backed handlers, while the connection holds, every
    route that needs a list, given an id that no list has, answers 404
    "Shopping list not found" and changes no table: reading, updating (with
    a bound name), deleting the list, and posting an item (with a bound
    name) under it. *)
Theorem missing_list_is_404 (id : UUID) (body : ShoppingListHandler.ShoppingListRequest)
    (item : ItemHandler.CreateItemRequest.t) (w : World)
    (Hdb : healthy 1 w)
    (Hmissing : id ∉ gorm.list_ids (store w))
    (Hname : ShoppingListHandler.Name body ≠ EmptyString)
    (Hitem : ItemHandler.CreateItemRequest.Name item ≠ EmptyString) :
  let not_found := routes.Handled (JSON StatusNotFound (H_error "Shopping list not found")) in
  (main.router (routes.GET_lists_id (Ok id)) w).1 = not_found
  ∧ (main.router (routes.PUT_lists_id (Ok id) (Ok body)) w).1 = not_found
  ∧ (main.router (routes.DELETE_lists_id (Ok id)) w).1 = not_found
  ∧ (main.router (routes.POST_shopping_lists_items (Ok id) (Ok item)) w).1 = not_found
  ∧ store (main.router (routes.GET_lists_id (Ok id)) w).2 = store w
  ∧ store (main.router (routes.PUT_lists_id (Ok id) (Ok body)) w).2 = store w
  ∧ store (main.router (routes.DELETE_lists_id (Ok id)) w).2 = store w
  ∧ store (main.router (routes.POST_shopping_lists_items (Ok id) (Ok item)) w).2 = store w.
Proof.
  assert (Hreplies :
    (main.router (routes.GET_lists_id (Ok id)) w).1
    = routes.Handled (JSON StatusNotFound (H_error "Shopping list not found"))
    ∧ (main.router (routes.PUT_lists_id (Ok id) (Ok body)) w).1
      = routes.Handled (JSON StatusNotFound (H_error "Shopping list not found"))
    ∧ (main.router (routes.DELETE_lists_id (Ok id)) w).1
      = routes.Handled (JSON StatusNotFound (H_error "Shopping list not found"))
    ∧ (main.router (routes.POST_shopping_lists_items (Ok id) (Ok item)) w).1
      = routes.Handled (JSON StatusNotFound (H_error "Shopping list not found"))).
  { destruct (list_GetByID_run 0 id w Hdb) as (w1 & Hget & _).
    rewrite (find_missing ShoppingList.ID id _ Hmissing) in Hget.
    destruct (list_Delete_run 0 id w Hdb) as (w2 & Hdel & _).
    rewrite decide_False in Hdel by done.
    unfold main.router. unfold_handlers. simpl. unfold_M.
    unfold ShoppingListService.GetShoppingList, ShoppingListService.UpdateShoppingList,
      ShoppingListService.DeleteShoppingList, ItemService.CreateItem. simpl. unfold_M.
    rewrite Hget, Hdel. simpl.
    split_and!; try done.
    all: repeat case_decide; simpl; try done.
    all: by rewrite Hget. }
  destruct Hreplies as (H1 & H2 & H3 & H4). cbv zeta.
  split_and!; [exact H1 | exact H2 | exact H3 | exact H4 | ..].
  all: apply error_reply_changes_nothing_aux;
    first [rewrite H1 | rewrite H2 | rewrite H3 | rewrite H4]; by vm_compute.
Qed.

Lemma missing_list_is_404_witness :
  healthy 1 examples.w0
  ∧ (9 ∉ gorm.list_ids (store examples.w0))
  ∧ (main.router (routes.DELETE_lists_id (Ok 9)) examples.w0).1
    = routes.Handled (JSON StatusNotFound (H_error "Shopping list not found")).
Proof.
  assert (Hdb : healthy 1 examples.w0) by constructor.
  assert (Hmissing : 9 ∉ gorm.list_ids (store examples.w0)).
  { apply (bool_decide_unpack _). by vm_compute. }
  split; [done|]. split; [done|].
  pose proof (missing_list_is_404 9 (ShoppingListHandler.mkShoppingListRequest "Food" "x")
                (ItemHandler.CreateItemRequest.mk "Tea" 1)
                examples.w0 Hdb Hmissing ltac:(done) ltac:(done)) as H.
  cbv zeta in H. by destruct H as (_ & _ & H & _).
Defined.

(** ** Configuration at start-up *)

Lemma getEnv_not_empty env key fallback :
  fallback ≠ EmptyString → main.getEnv env key fallback ≠ EmptyString.
Proof. intros Hf. unfold main.getEnv. by case_decide. Qed.

(** X23. [getEnv] answers the variable's value exactly when it is set to a
    non-empty string, and the fallback otherwise: a variable set to the
    empty string counts as not set.  With the non-empty fallbacks of [main],
    the database configuration therefore never has an empty host, port,
    user or database name, whatever the environment holds. *)
Theorem getEnv_falls_back (env : main.Environ) (key fallback : string) :
  (∀ value, env key = Some value → value ≠ EmptyString →
     main.getEnv env key fallback = value)
  ∧ (env key = None ∨ env key = Some EmptyString → main.getEnv env key fallback = fallback)
  ∧ database.isValidConfig (main.dbConfig env) = true.
Proof.
  split_and!.
  - intros value Hset Hvalue. unfold main.getEnv, main.Getenv. rewrite Hset. simpl.
    by rewrite decide_True.
  - intros [Hset|Hset]; unfold main.getEnv, main.Getenv; by rewrite Hset.
  - unfold database.isValidConfig, main.dbConfig. simpl.
    rewrite !andb_true_iff. split_and!; apply bool_decide_eq_true;
      by apply getEnv_not_empty.
Qed.

(** ** One row at a time *)

Lemma update_items_unique id new rows : ∀ i old,
  NoDup (Item.ID <$> rows) →
  rows !! i = Some old → Item.ID old = id →
  gorm.update_items id new rows = <[i := new]> rows.
Proof.
  unfold gorm.update_items.
  induction rows as [|r rows IH]; intros i old Hkeys Hi Hold; [done|].
  rewrite fmap_cons in Hkeys. apply list.NoDup_cons in Hkeys as [Hr Hkeys].
  destruct i as [|i]; simpl in *.
  - injection Hi as ->. rewrite decide_True by done. f_equal.
    rewrite <- (list_fmap_id rows) at 2. apply list_fmap_ext. intros j y Hy. simpl.
    case_decide as Hyid; [|done]. destruct Hr. rewrite Hold, <- Hyid.
    apply list_elem_of_fmap_2. by eapply list_elem_of_lookup_2.
  - case_decide as Hrid.
    + destruct Hr. rewrite Hrid, <- Hold. apply list_elem_of_fmap_2.
      by eapply list_elem_of_lookup_2.
    + f_equal. by apply (IH i old).
Qed.

(** X24. On the gorm-backed service, with unique item keys, for a stored
    item with a non-zero key, a non-empty name and a connection that holds:
    [UpdateItem] rewrites the one row of the item in place and nothing else,
    every other item and every list staying as it was, and [GetItem] of the
    id then answers exactly the item that [UpdateItem] answered. *)
Theorem UpdateItem_rewrites_one_row (id : UUID) (name : string) (quantity : Z)
    (completed : bool) (w : World) (i : nat) (item : Item.t)
    (Hname : name ≠ EmptyString)
    (Hdb : healthy 3 w)
    (Hkey : id ≠ uuid.Nil)
    (Hstored : list_find (λ r, Item.ID r = id) (items (store w)) = Some (i, item))
    (Hunique : NoDup (gorm.item_ids (store w))) :
  ∃ updated w',
    ItemService.UpdateItem server.itemService id name quantity completed w
    = (Ok updated, w')
    ∧ items (store w') = <[i := updated]> (items (store w))
    ∧ shopping_lists (store w') = shopping_lists (store w)
    ∧ (ItemService.GetItem server.itemService id w').1 = Ok updated.
Proof.
  destruct (item_GetByID_run 2 id w Hdb) as (w1 & Hget & Hs1 & _ & Hc1 & Hh1).
  rewrite Hstored in Hget.
  destruct (list_find_item_ids _ _ _ _ Hstored) as [Hid Hin].
  apply list_find_Some in Hstored as Hrow. destruct Hrow as (Hi & _ & _).
  set (new := Item.set_Completed completed
                (Item.set_Quantity quantity (Item.set_Name name item))).
  destruct (item_Update_run 1 new w1 Hh1)
    as (w2 & Hupd & Hitems & Hlists & _ & Hc2 & Hh2).
  { simpl. by rewrite Hid. }
  { simpl. unfold gorm.item_ids. by rewrite Hs1, Hid. }
  assert (Hitems' : items (store w2)
                    = <[i := Item.set_UpdatedAt (clock w1 + 1) new]> (items (store w))).
  { rewrite Hitems, Hs1. change (Item.ID new) with (Item.ID item). rewrite Hid.
    by apply (update_items_unique id _ _ i item). }
  exists (Item.set_UpdatedAt (clock w1 + 1) new), w2. split_and!.
  - unfold ItemService.UpdateItem. case_decide; [done|]. unfold_M. simpl.
    rewrite Hget. fold new. by rewrite Hupd.
  - done.
  - by rewrite Hlists, Hs1.
  - destruct (item_GetByID_run 0 id w2 Hh2) as (w3 & Hrun & _).
    unfold ItemService.GetItem. simpl. rewrite Hrun, Hitems, Hs1. simpl.
    change (Item.ID new) with (Item.ID item). rewrite Hid.
    by rewrite (list_find_update_items id _ _ i item).
Qed.

Lemma UpdateItem_rewrites_one_row_witness :
  "Oat milk" ≠ EmptyString ∧ healthy 3 examples.w0 ∧ 21 ≠ uuid.Nil
  ∧ NoDup (gorm.item_ids (store examples.w0))
  ∧ ∃ updated w',
      ItemService.UpdateItem server.itemService 21 "Oat milk" 3 true examples.w0
      = (Ok updated, w')
      ∧ items (store w') = [updated; examples.nails; examples.bread].
Proof.
  assert (Hname : "Oat milk" ≠ EmptyString) by done.
  assert (Hdb : healthy 3 examples.w0) by constructor.
  assert (Hkey : 21 ≠ uuid.Nil) by done.
  pose proof (proj2 (proj1 sample_consistent)) as Hunique.
  split; [done|]. split; [done|]. split; [done|]. split; [done|].
  destruct (UpdateItem_rewrites_one_row 21 "Oat milk" 3 true examples.w0 0 examples.milk
              Hname Hdb Hkey eq_refl Hunique) as (updated & w' & Hrun & Hitems & _).
  exists updated, w'. by rewrite Hitems.
Defined.

(** ** The migrator's database URL *)

